(** * The JSONL flow writer of [scripts/mitm_jsonl_writer.py]

    A shallow embedding of the mitmproxy addon [JSONLFlowWriter] and of
    its control handler [TaskOutputHandler], followed by the properties
    of the router that the specification states about them.

    The Python methods mutate one shared writer object, append to files
    and may raise; they are embedded in a state-and-exception monad over
    a [World] (writer object, disk, standard output).  What the operating
    system and the [json] library decide (whether [mkdir], [open] and
    [close] fail, whether a text can be encoded and handed to a file,
    how a record is serialised) is an explicit parameter [Env] of every
    operation.  A file object keeps the text it could not hand to its
    file in its buffer; the next write or [close] tries again.  Each method body runs under
    [with self.lock], so one call is one transition of the world. *)

From Stdlib Require Import ZArith DecimalString.
From stdpp Require Import gmap strings list.

Local Open Scope Z_scope.
Local Open Scope string_scope.

(** ** Python values *)

(** A Python value as the writer observes it.  The code only ever tests
    a task id for truth ([if task_id:]), formats it ([f"{task_id}"]) and
    stores it; a float, list or dict is therefore carried as [POther]
    with its truth value and its [str()] text. *)
Inductive pyval : Type :=
| PNone
| PBool (b : bool)
| PInt (n : Z)
| PStr (s : string)
| POther (truth : bool) (text : string).

(** [bool(v)]. *)
Definition truthy (v : pyval) : bool :=
  match v with
  | PNone => false
  | PBool b => b
  | PInt n => negb (Z.eqb n 0)
  | PStr s => negb (String.eqb s "")
  | POther t _ => t
  end.

(** [str(v)], as an f-string placeholder formats it. *)
Definition py_str (v : pyval) : string :=
  match v with
  | PNone => "None"
  | PBool true => "True"
  | PBool false => "False"
  | PInt n => NilZero.string_of_int (Z.to_int n)
  | PStr s => s
  | POther _ t => t
  end.

(** The one-character string "\n". *)
Definition newline : string := String (Ascii.ascii_of_nat 10) EmptyString.

(** A dict literal, in insertion order. *)
Definition pydict : Type := list (string * pyval).

Definition keys (d : pydict) : list string := map fst d.

Fixpoint dict_get (k : string) (d : pydict) : option pyval :=
  match d with
  | [] => None
  | (k', v) :: d' => if String.eqb k k' then Some v else dict_get k d'
  end.

(** ** Exceptions *)

Inductive exn_class : Type :=
| OSError
| ValueError
| AttributeError
| TypeError
| JSONDecodeError.

(** Every class above derives from [Exception]; [msg] is [str(e)]. *)
Record exn : Type := Exn { cls : exn_class; msg : string }.

Inductive result (A : Type) : Type :=
| Ok (a : A)
| Raise (e : exn).
Arguments Ok {A} a.
Arguments Raise {A} e.

(** ** Files *)

Inductive open_mode : Type :=
| ModeW   (* "w": truncate *)
| ModeA.  (* "a": append *)

(** A file object opened with [buffering=1].  Text written to it goes
    to a buffer and is handed to the file when a line is complete;
    [h_pending] is the text still in the buffer. *)
Record Handle : Type := {
  h_path : string;
  h_mode : open_mode;
  h_pending : string;
  h_closed : bool
}.

(** ** The writer object and the world *)

(** The attributes of [JSONLFlowWriter] that change after construction.
    [default_output_path] is assigned once in [__init__] and is the
    constant below. *)
Record JSONLFlowWriter : Type := {
  current_task_id : pyval;
  current_file_path : option string;
  file : option Handle
}.

Definition default_output_path : string := "/results/flows.jsonl".

Record World : Type := {
  writer : JSONLFlowWriter;
  disk : gmap string string;   (* path -> file content *)
  stdout : list string         (* lines printed, oldest first *)
}.

(** What the platform decides.  A fault is the exception the call
    raises; [None] means the call goes through.  A text is handed to a
    file whole or not at all. *)
Record Env : Type := {
  mkdir_fault : string -> option exn;
    (* Path(p).parent.mkdir(parents=True, exist_ok=True), keyed by p *)
  open_fault : string -> option exn;
    (* open(p, "a", buffering=1) *)
  close_fault : string -> option exn;
    (* closing the descriptor of the file at that path *)
  encode_fault : string -> option exn;
    (* f.write(data): data cannot be encoded; nothing gets buffered *)
  flush_fault : string -> string -> option exn;
    (* handing buffered text to the file at that path *)
  json_dumps : pydict -> result string
    (* json.dumps(record, ensure_ascii=False) *)
}.

(** ** The monad *)

Definition M (A : Type) : Type := World -> World * result A.

Definition ret {A} (a : A) : M A := fun w => (w, Ok a).

Definition bind {A B} (m : M A) (k : A -> M B) : M B :=
  fun w =>
    match m w with
    | (w', Ok a) => k a w'
    | (w', Raise e) => (w', Raise e)
    end.

Definition raise {A} (e : exn) : M A := fun w => (w, Raise e).

(** [try: m  except Exception as e: h e] (also the bare [except:]):
    the state reached when the exception was raised is kept. *)
Definition try_except {A} (m : M A) (h : exn -> M A) : M A :=
  fun w =>
    match m w with
    | (w', Ok a) => (w', Ok a)
    | (w', Raise e) => h e w'
    end.

Declare Scope py_scope.
Delimit Scope py_scope with py.
Notation "'let*' x ':=' m 'in' k" := (bind m (fun x => k))
  (at level 10, x name, m at level 100, k at level 200) : py_scope.
Notation "m >> k" := (bind m (fun _ => k))
  (at level 65, right associativity) : py_scope.
Local Open Scope py_scope.

Definition get_writer : M JSONLFlowWriter := fun w => (w, Ok (writer w)).

Definition put_writer (s : JSONLFlowWriter) : M unit :=
  fun w => ({| writer := s; disk := disk w; stdout := stdout w |}, Ok tt).

Definition set_current_task_id (v : pyval) : M unit :=
  let* s := get_writer in
  put_writer {| current_task_id := v;
                current_file_path := current_file_path s;
                file := file s |}.

Definition set_current_file_path (p : option string) : M unit :=
  let* s := get_writer in
  put_writer {| current_task_id := current_task_id s;
                current_file_path := p;
                file := file s |}.

Definition set_file (f : option Handle) : M unit :=
  let* s := get_writer in
  put_writer {| current_task_id := current_task_id s;
                current_file_path := current_file_path s;
                file := f |}.

(** [print(line)]. *)
Definition print (line : string) : M unit :=
  fun w => ({| writer := writer w; disk := disk w;
               stdout := stdout w ++ [line] |}, Ok tt).

Definition set_disk (d : gmap string string) : M unit :=
  fun w => ({| writer := writer w; disk := d; stdout := stdout w |}, Ok tt).

Definition get_disk : M (gmap string string) := fun w => (w, Ok (disk w)).

Definition content (d : gmap string string) (p : string) : string :=
  default "" (d !! p).

(** The file object once closed: what was in its buffer is gone. *)
Definition closed (h : Handle) : Handle :=
  {| h_path := h_path h; h_mode := h_mode h; h_pending := ""; h_closed := true |}.

(** The file object with other text in its buffer. *)
Definition with_pending (h : Handle) (text : string) : Handle :=
  {| h_path := h_path h; h_mode := h_mode h; h_pending := text;
     h_closed := h_closed h |}.

(** The text has a line break: what makes a line-buffered file flush. *)
Fixpoint has_newline (s : string) : bool :=
  match s with
  | EmptyString => false
  | String a s' =>
      Ascii.eqb a (Ascii.ascii_of_nat 10) || Ascii.eqb a (Ascii.ascii_of_nat 13)
      || has_newline s'
  end.

Section Operations.

Variable env : Env.

(** *** Platform calls *)

Definition mkdir_parent (p : string) : M unit :=
  match mkdir_fault env p with
  | Some e => raise e
  | None => ret tt
  end.

(** [open(p, mode, buffering=1)]: "w" empties the file, "a" keeps what
    is there; both create a missing file. *)
Definition py_open (p : string) (mode : open_mode) : M Handle :=
  match open_fault env p with
  | Some e => raise e
  | None =>
      let* d := get_disk in
      set_disk (match mode with
                | ModeW => <[p := ""]> d
                | ModeA => <[p := content d p]> d
                end) >>
      ret {| h_path := p; h_mode := mode; h_pending := ""; h_closed := false |}
  end.

(** The file object [self.file] refers to, for a call of [method] on
    it.  The local [file_handle] of [response] refers to the same object
    for the whole call, there being no other thread here: a call through
    either name acts on this object. *)
Definition the_file (method : string) : M Handle :=
  let* s := get_writer in
  match file s with
  | Some h => ret h
  | None =>
      raise (Exn AttributeError
               ("'NoneType' object has no attribute '" +:+ method +:+ "'"))
  end.

(** Hand the buffer of the file object to its file.  When that fails
    the text stays in the buffer. *)
Definition flush_buffer : M unit :=
  let* h := the_file "flush" in
  if String.eqb (h_pending h) "" then ret tt
  else
    match flush_fault env (h_path h) (h_pending h) with
    | Some e => raise e
    | None =>
        let* d := get_disk in
        set_disk (<[h_path h := content d (h_path h) +:+ h_pending h]> d) >>
        set_file (Some (with_pending h ""))
    end.

(** [f.close()]: the buffer is flushed first; the object is closed
    whether or not flushing or closing raises, and text that could not
    be flushed is lost.  Closing twice is a no-op. *)
Definition file_close : M unit :=
  let* h := the_file "close" in
  if h_closed h then ret tt
  else
    let* flushed := try_except (flush_buffer >> ret None)
                               (fun e => ret (Some e)) in
    set_file (Some (closed h)) >>
    match flushed with
    | Some e => raise e
    | None =>
        match close_fault env (h_path h) with
        | Some e => raise e
        | None => ret tt
        end
    end.

(** [f.write(data)] on a line-buffered text file: the encoded text is
    added to the buffer and, when it has a line break, the buffer is
    flushed before the call returns (texts are taken to fit the
    buffer). *)
Definition file_write (data : string) : M unit :=
  let* h := the_file "write" in
  if h_closed h then raise (Exn ValueError "I/O operation on closed file.")
  else
    match encode_fault env data with
    | Some e => raise e
    | None =>
        set_file (Some (with_pending h (h_pending h +:+ data))) >>
        if has_newline data then flush_buffer else ret tt
    end.

(** [f.flush()]. *)
Definition file_flush : M unit :=
  let* h := the_file "flush" in
  if h_closed h then raise (Exn ValueError "I/O operation on closed file.")
  else flush_buffer.

(** *** JSONLFlowWriter *)

Definition _open_file (file_path : string) : M unit :=
  let* s := get_writer in
  match file s with
  | Some _ => try_except file_close (fun _ => ret tt)
  | None => ret tt
  end >>
  mkdir_parent file_path >>
  let* h := py_open file_path ModeA in
  set_file (Some h) >>
  set_current_file_path (Some file_path).

Definition __init__ : M unit :=
  mkdir_parent default_output_path >>
  set_current_task_id PNone >>
  set_current_file_path None >>
  set_file None >>
  _open_file default_output_path >>
  print ("[JSONL Writer] Started, default output: " +:+ default_output_path).

Definition set_output_task (task_id : pyval) : M unit :=
  set_current_task_id task_id >>
  let task_output_path := "/results/" +:+ py_str task_id +:+ "/flows.jsonl" in
  _open_file task_output_path >>
  print ("[JSONL Writer] Output switched to task: " +:+ py_str task_id
         +:+ " -> " +:+ task_output_path).

Definition clear_output_task : M unit :=
  let* s := get_writer in
  let old_task_id := current_task_id s in
  set_current_task_id PNone >>
  _open_file default_output_path >>
  print ("[JSONL Writer] Output cleared (was task: " +:+ py_str old_task_id
         +:+ "), back to default").

Definition of_path (p : option string) : pyval :=
  match p with
  | Some s => PStr s
  | None => PNone
  end.

Definition get_current_task : M pydict :=
  let* s := get_writer in
  ret [("task_id", current_task_id s);
       ("output_path", of_path (current_file_path s))].

(** The exchange handed over by the proxy engine: the accessors of
    [flow.request] that [response] reads. *)
Record Flow : Type := {
  timestamp_start : pyval;   (* a float *)
  method : string;
  scheme : string;
  host : string;
  port : Z;
  path : string;
  pretty_url : string
}.

Definition build_record (flow : Flow) (current_task : pyval) : pydict :=
  let record := [("ts", timestamp_start flow);
                 ("method", PStr (method flow));
                 ("scheme", PStr (scheme flow));
                 ("host", PStr (host flow));
                 ("port", PInt (port flow));
                 ("path", PStr (path flow));
                 ("url", PStr (pretty_url flow))] in
  if truthy current_task then (record ++ [("task_id", current_task)])%list
  else record.

(** [json.dumps(record, ensure_ascii=False)]. *)
Definition dumps (record : pydict) : M string :=
  fun w => (w, json_dumps env record).

(** The body of the [try] block of [response]. *)
Definition response_body (flow : Flow) : M unit :=
  let* s := get_writer in
  let current_task := current_task_id s in
  (* file_handle = self.file: see [the_file] *)
  let record := build_record flow current_task in
  let* json_line := dumps record in
  file_write (json_line +:+ newline) >>
  file_flush >>
  if truthy current_task then
    print ("[JSONL Writer] [" +:+ py_str current_task +:+ "] "
           +:+ method flow +:+ " " +:+ pretty_url flow)
  else ret tt.

Definition response (flow : Flow) : M unit :=
  try_except (response_body flow)
    (fun e => print ("[JSONL Writer] Error: " +:+ msg e)).

Definition done : M unit :=
  let* s := get_writer in
  match file s with
  | Some _ =>
      try_except (file_close >> print "[JSONL Writer] Closed file")
                 (fun _ => ret tt) >>
      set_file None
  | None => ret tt
  end.

End Operations.

(** ** TaskOutputHandler *)

(** What [json.loads] returned: a dict, or a value without [.get]. *)
Inductive json_data : Type :=
| JObject (fields : gmap string pyval)
| JNonObject.

(** The request body as [do_POST] gets to see it. *)
Inductive Body : Type :=
| BodyBadLength    (* Content-Length is not an integer: int() raises *)
| BodyEmpty        (* no bytes were read: data = {} *)
| BodyUndecodable  (* not UTF-8 or not JSON: decode / json.loads raises *)
| BodyData (data : json_data).

Record PostRequest : Type := {
  req_path : string;
  req_body : Body
}.

(** What the handler sent: [send_response], the headers, and the dict
    given to [json.dumps] for the body, if any.  Writing to the socket
    is taken to go through. *)
Record Response : Type := {
  status : Z;
  headers : list (string * string);
  body : option pydict
}.

Definition json_response (code : Z) (payload : pydict) : Response :=
  {| status := code;
     headers := [("Content-Type", "application/json")];
     body := Some payload |}.

Definition bare_response (code : Z) : Response :=
  {| status := code; headers := []; body := None |}.

Section Handler.

Variable env : Env.

(** The first three statements of [do_POST]. *)
Definition read_data (b : Body) : M json_data :=
  match b with
  | BodyBadLength => raise (Exn ValueError "invalid literal for int() with base 10")
  | BodyEmpty => ret (JObject ∅)
  | BodyUndecodable => raise (Exn JSONDecodeError "Expecting value")
  | BodyData data => ret data
  end.

(** [data.get(key)]. *)
Definition data_get (data : json_data) (key : string) : M pyval :=
  match data with
  | JObject fields => ret (default PNone (fields !! key))
  | JNonObject => raise (Exn AttributeError "object has no attribute 'get'")
  end.

Definition api_error {A} (r : A) (e : exn) : M A :=
  print ("[API Error] " +:+ msg e) >> ret r.

Definition do_POST (req : PostRequest) : M Response :=
  try_except
    (let* data := read_data (req_body req) in
     if String.eqb (req_path req) "/set_output" then
       let* task_id := data_get data "task_id" in
       if truthy task_id then
         set_output_task env task_id >>
         ret (json_response 200 [("status", PStr "ok"); ("task_id", task_id)])
       else
         ret (json_response 400 [("error", PStr "task_id required")])
     else if String.eqb (req_path req) "/clear_output" then
       clear_output_task env >>
       ret (json_response 200 [("status", PStr "ok")])
     else
       ret (bare_response 404))
    (api_error (bare_response 500)).

Definition do_GET (req_path : string) : M Response :=
  try_except
    (if String.eqb req_path "/current_task" then
       let* task_info := get_current_task in
       ret (json_response 200 task_info)
     else
       ret (bare_response 404))
    (api_error (bare_response 500)).

End Handler.

(** ** Runs of the addon *)

(** A control request.  [BaseHTTPRequestHandler] calls [do_<verb>];
    the handler defines the two verbs below. *)
Inductive request : Type :=
| GET (req_path : string)
| POST (req : PostRequest).

Definition handle (env : Env) (rq : request) : M Response :=
  match rq with
  | GET p => do_GET p
  | POST req => do_POST env req
  end.

(** What can happen to a loaded addon: a control request, a flow
    reported by the proxy engine, or shutdown. *)
Inductive event : Type :=
| EvRequest (rq : request)
| EvResponse (flow : Flow)
| EvDone.

Definition step (env : Env) (ev : event) (w : World) : World :=
  match ev with
  | EvRequest rq => fst (handle env rq w)
  | EvResponse flow => fst (response env flow w)
  | EvDone => fst (done env w)
  end.

(** A run: the events in order, each under what the platform decides
    at that time. *)
Fixpoint run (evs : list (Env * event)) (w : World) : World :=
  match evs with
  | [] => w
  | (env, ev) :: evs' => run evs' (step env ev w)
  end.

(** The world before the module is loaded: no attribute assigned yet. *)
Definition boot (d : gmap string string) : World :=
  {| writer := {| current_task_id := PNone;
                  current_file_path := None;
                  file := None |};
     disk := d;
     stdout := [] |}.

(** The worlds a running addon can be in: the module-level
    [JSONLFlowWriter()] returned, then any events. *)
Inductive reachable : World -> Prop :=
| reach_init env d w :
    __init__ env (boot d) = (w, Ok tt) -> reachable w
| reach_step env ev w :
    reachable w -> reachable (step env ev w).

(** ** Router state *)

(** [f"/results/{task_id}/flows.jsonl"]. *)
Definition task_path (task_id : pyval) : string :=
  "/results/" +:+ py_str task_id +:+ "/flows.jsonl".

(** The path the current task identifier stands for. *)
Definition implied_path (task_id : pyval) : string :=
  match task_id with
  | PNone => default_output_path
  | _ => task_path task_id
  end.

(** The stream a completed switch to [p] installs. *)
Definition stream (p : string) : Handle :=
  {| h_path := p; h_mode := ModeA; h_pending := ""; h_closed := false |}.

(** Router State invariant: the recorded path and the installed, open
    stream are those of the current task identifier (whatever text the
    stream has in its buffer). *)
Definition router_invariant (w : World) : Prop :=
  current_file_path (writer w) = Some (implied_path (current_task_id (writer w)))
  /\ exists text,
       file (writer w)
       = Some (with_pending (stream (implied_path (current_task_id (writer w)))) text).

(** A task is active when the task identifier is not [None]. *)
Definition task_active (w : World) : bool :=
  match current_task_id (writer w) with
  | PNone => false
  | _ => true
  end.

(** The registry operations the invariant speaks of. *)
Inductive operation : Type :=
| SwitchToTask (task_id : pyval)
| Clear
| OnFlowObserved (flow : Flow).

Definition perform (env : Env) (o : operation) : M unit :=
  match o with
  | SwitchToTask task_id => set_output_task env task_id
  | Clear => clear_output_task env
  | OnFlowObserved flow => response env flow
  end.

(** The task identifier a switch or clear installs. *)
Definition target (o : operation) (w : World) : pyval :=
  match o with
  | SwitchToTask task_id => task_id
  | Clear => PNone
  | OnFlowObserved _ => current_task_id (writer w)
  end.

(** A file object after [close()] was called on it. *)
Definition close_handle (h : Handle) : Handle :=
  if h_closed h then h else closed h.

(** The writer after [_open_file] got as far as closing the old file. *)
Definition close_old (s : JSONLFlowWriter) : JSONLFlowWriter :=
  {| current_task_id := current_task_id s;
     current_file_path := current_file_path s;
     file := close_handle <$> file s |}.

(** Text that closing or flushing the installed file object would hand
    to its file, with the path of that file: there is an open file
    object with text in its buffer and the platform takes the text. *)
Definition flushable (env : Env) (w : World) : option (string * string) :=
  match file (writer w) with
  | Some h =>
      if h_closed h || String.eqb (h_pending h) "" then None
      else
        match flush_fault env (h_path h) (h_pending h) with
        | Some _ => None
        | None => Some (h_path h, h_pending h)
        end
  | None => None
  end.

(** The disk after the installed file object was closed. *)
Definition disk_after_close (env : Env) (w : World) : gmap string string :=
  match flushable env w with
  | Some (p, text) => <[p := content (disk w) p +:+ text]> (disk w)
  | None => disk w
  end.

(** The world after the installed file object was closed. *)
Definition after_close (env : Env) (w : World) : World :=
  {| writer := close_old (writer w);
     disk := disk_after_close env w;
     stdout := stdout w |}.

(** [d'] keeps every file of [d], each with its old content as a
    prefix of the new. *)
Definition grows (d d' : gmap string string) : Prop :=
  forall p c, d !! p = Some c -> exists s, d' !! p = Some (c +:+ s).

(** The world with another writer state. *)
Definition with_writer (w : World) (s : JSONLFlowWriter) : World :=
  {| writer := s; disk := disk w; stdout := stdout w |}.

(** The world with one more printed line. *)
Definition logged (w : World) (line : string) : World :=
  {| writer := writer w; disk := disk w; stdout := stdout w ++ [line] |}.

(** The writer with another task identifier and nothing else changed. *)
Definition retask (task_id : pyval) (s : JSONLFlowWriter) : JSONLFlowWriter :=
  {| current_task_id := task_id;
     current_file_path := current_file_path s;
     file := file s |}.

(** The world after [_open_file p] went through under [task_id]. *)
Definition installed (w : World) (task_id : pyval) (p : string) : World :=
  {| writer := {| current_task_id := task_id;
                  current_file_path := Some p;
                  file := Some (stream p) |};
     disk := <[p := content (disk w) p]> (disk w);
     stdout := stdout w |}.

(** The world a switch to [task_id] leaves behind when it raises. *)
Definition half_switched (env : Env) (w : World) (task_id : pyval) : World :=
  after_close env (with_writer w (retask task_id (writer w))).

(** The first exception [mkdir] then [open] raise for [p], if any. *)
Definition fault (env : Env) (p : string) : option exn :=
  match mkdir_fault env p with
  | Some e => Some e
  | None => open_fault env p
  end.

Definition switched_line (task_id : pyval) : string :=
  "[JSONL Writer] Output switched to task: " +:+ py_str task_id
  +:+ " -> " +:+ task_path task_id.

Definition cleared_line (old_task_id : pyval) : string :=
  "[JSONL Writer] Output cleared (was task: " +:+ py_str old_task_id
  +:+ "), back to default".

Definition error_line (e : exn) : string := "[JSONL Writer] Error: " +:+ msg e.

Definition api_error_line (e : exn) : string := "[API Error] " +:+ msg e.

(** The snapshot [get_current_task] returns. *)
Definition snapshot (w : World) : result pydict := snd (get_current_task w).

(** The request body is read and decoded without an exception. *)
Definition readable (b : Body) : bool :=
  match b with
  | BodyEmpty | BodyData _ => true
  | BodyBadLength | BodyUndecodable => false
  end.

(** The request names no endpoint of its verb. *)
Definition unrouted (rq : request) : bool :=
  match rq with
  | GET p => negb (String.eqb p "/current_task")
  | POST req => negb (String.eqb (req_path req) "/set_output")
                && negb (String.eqb (req_path req) "/clear_output")
  end.

(** The body of the request, if the verb reads one. *)
Definition body_of (rq : request) : Body :=
  match rq with
  | GET _ => BodyEmpty
  | POST req => req_body req
  end.

(** A [/set_output] request. *)
Definition set_output_request (b : Body) : PostRequest :=
  {| req_path := "/set_output"; req_body := b |}.

(** The value [data.get("task_id")] yields for a decoded object. *)
Definition task_id_of (fields : gmap string pyval) : pyval :=
  default PNone (fields !! "task_id").

(** The writer with another file object installed. *)
Definition refile (f : option Handle) (s : JSONLFlowWriter) : JSONLFlowWriter :=
  {| current_task_id := current_task_id s;
     current_file_path := current_file_path s;
     file := f |}.

(** The world after [data] went into the buffer of [h] and stayed there. *)
Definition buffered (w : World) (h : Handle) (data : string) : World :=
  with_writer w (refile (Some (with_pending h (h_pending h +:+ data))) (writer w)).

Definition flow_line (task_id : pyval) (flow : Flow) : string :=
  "[JSONL Writer] [" +:+ py_str task_id +:+ "] "
  +:+ method flow +:+ " " +:+ pretty_url flow.

(** The world after [response] wrote [line] for [flow] through [h]. *)
Definition recorded (w : World) (h : Handle) (line : string) (flow : Flow) : World :=
  let w' :=
    {| writer := refile (Some (with_pending h "")) (writer w);
       disk := <[h_path h := content (disk w) (h_path h)
                             +:+ h_pending h +:+ line +:+ newline]> (disk w);
       stdout := stdout w |} in
  if truthy (current_task_id (writer w))
  then logged w' (flow_line (current_task_id (writer w)) flow)
  else w'.

(** A switch names a task: its identifier is not [None]. *)
Definition names_task (o : operation) : Prop :=
  match o with
  | SwitchToTask task_id => task_id <> PNone
  | Clear | OnFlowObserved _ => True
  end.

(** The path a switch or clear opens. *)
Definition target_path (o : operation) (w : World) : string :=
  match o with
  | SwitchToTask task_id => task_path task_id
  | Clear => default_output_path
  | OnFlowObserved _ => implied_path (current_task_id (writer w))
  end.

(** The seven fields every record has, in order. *)
Definition base_fields : list string :=
  ["ts"; "method"; "scheme"; "host"; "port"; "path"; "url"].

(** ** Sample platforms *)

(** The one-character string holding a double quote. *)
Definition dquote : string := String (Ascii.ascii_of_nat 34) EmptyString.

Definition quoted (s : string) : string := dquote +:+ s +:+ dquote.

Definition render_value (v : pyval) : string :=
  match v with
  | PNone => "null"
  | PBool true => "true"
  | PBool false => "false"
  | PInt n => py_str (PInt n)
  | PStr s => quoted s
  | POther _ t => t
  end.

Fixpoint render_items (d : pydict) : string :=
  match d with
  | [] => ""
  | [(k, v)] => quoted k +:+ ": " +:+ render_value v
  | (k, v) :: d' => quoted k +:+ ": " +:+ render_value v +:+ ", " +:+ render_items d'
  end.

(** A platform on which no call fails and records whose strings need no
    escaping are rendered the way [json.dumps] does. *)
Definition env_ok : Env :=
  {| mkdir_fault := fun _ => None;
     open_fault := fun _ => None;
     close_fault := fun _ => None;
     encode_fault := fun _ => None;
     flush_fault := fun _ _ => None;
     json_dumps := fun d => Ok ("{" +:+ render_items d +:+ "}") |}.

(** The same platform, except that the directory of [p] cannot be
    created (a regular file is in the way, or the volume is read-only). *)
Definition env_mkdir_denied (p : string) : Env :=
  {| mkdir_fault := fun q =>
       if String.eqb q p then Some (Exn OSError "[Errno 13] Permission denied") else None;
     open_fault := open_fault env_ok;
     close_fault := close_fault env_ok;
     encode_fault := encode_fault env_ok;
     flush_fault := flush_fault env_ok;
     json_dumps := json_dumps env_ok |}.

(** The world right after a start on an empty disk. *)
Definition w_started : World := fst (__init__ env_ok (boot ∅)).

(** The platform of the failed switch studied below. *)
Definition env_t1_denied : Env := env_mkdir_denied "/results/t1/flows.jsonl".

Definition denied : exn := Exn OSError "[Errno 13] Permission denied".

(** The request [POST /set_output {"task_id": "t1"}]. *)
Definition post_t1 : request :=
  POST (set_output_request (BodyData (JObject {["task_id" := PStr "t1"]}))).

(** The started addon after that request. *)
Definition w_t1 : World := step env_ok (EvRequest post_t1) w_started.

(** A request to no endpoint whose body is not JSON. *)
Definition post_nowhere_bad_body : request :=
  POST {| req_path := "/nope"; req_body := BodyUndecodable |}.

(** A task-file path and a world in which that file has one record. *)
Definition t1_file : string := "/results/t1/flows.jsonl".

Definition flow_a : Flow :=
  {| timestamp_start := POther true "1699999999.25";
     method := "GET"; scheme := "http"; host := "a.example";
     port := 80; path := "/x"; pretty_url := "http://a.example/x" |}.

Definition w_recorded : World := step env_ok (EvResponse flow_a) w_t1.

(** ** Further definitions for the writer *)

(** A platform on which closing a file always raises. *)
Definition env_close_fails : Env :=
  {| mkdir_fault := mkdir_fault env_ok;
     open_fault := open_fault env_ok;
     close_fault := fun _ => Some (Exn OSError "[Errno 5] Input/output error");
     encode_fault := encode_fault env_ok;
     flush_fault := flush_fault env_ok;
     json_dumps := json_dumps env_ok |}.



(** What identifies a file object: its path, its mode and whether it
    is closed. *)
Definition handle_id (h : Handle) : string * open_mode * bool :=
  (h_path h, h_mode h, h_closed h).

(** The flows of a list reported to [response] one after the other. *)
Definition observe_all (env : Env) (flows : list Flow) (w : World) : World :=
  run (map (fun flow => (env, EvResponse flow)) flows) w.

(** The text [response] writes for [flow] under task identifier [t]:
    the serialised record and a newline. *)
Definition record_line (env : Env) (t : pyval) (flow : Flow) : string :=
  match json_dumps env (build_record flow t) with
  | Ok line => line +:+ newline
  | Raise _ => ""
  end.

(** The strings of a list one after the other. *)
Definition join (l : list string) : string := fold_right String.append "" l.

(** The writer state a completed switch to [t] at path [p] leaves. *)
Definition switched_writer (t : pyval) (p : string) : JSONLFlowWriter :=
  {| current_task_id := t;
     current_file_path := Some p;
     file := Some (stream p) |}.

(** The recorded path is set, and an installed file object is at that
    path and was opened for append. *)
Definition handle_agrees (s : JSONLFlowWriter) : Prop :=
  exists p, current_file_path s = Some p
            /\ forall h, file s = Some h -> h_path h = p /\ h_mode h = ModeA.

(** A second flow. *)
Definition flow_b : Flow :=
  {| timestamp_start := POther true "1700000000.5";
     method := "POST"; scheme := "http"; host := "b.example";
     port := 8080; path := "/y"; pretty_url := "http://b.example:8080/y" |}.

(** ** The API scan of [scripts/analyze_apk.py] *)

(** A Python [str] as the sequence of its code points. *)
Abbreviation pystr := (list N).

(** A literal of the source. *)
Definition lit (s : string) : pystr := map Ascii.N_of_ascii (String.list_ascii_of_string s).

(** An element of [api_calls]: the dict with keys "api" and "found_in". *)
Record ApiCall : Type := { api : pystr; found_in : pystr }.

Definition sensitive_apis : list pystr :=
  map lit ["getLocation"; "getDeviceId"; "getSubscriberId"; "getSimSerialNumber";
           "getLine1Number"; "execSQL"; "rawQuery"; "getSharedPreferences";
           "sendTextMessage"].
Arguments sensitive_apis : simpl never.

(** [s] begins with [sub]. *)
Fixpoint startswith (s sub : pystr) {struct sub} : bool :=
  match sub, s with
  | [], _ => true
  | a :: sub', b :: s' => N.eqb a b && startswith s' sub'
  | _ :: _, [] => false
  end.

(** [sub in s]. *)
Fixpoint str_in (sub s : pystr) : bool :=
  startswith s sub ||
  match s with
  | [] => false
  | _ :: s' => str_in sub s'
  end.

(** [string_str[:100] if len(string_str) > 100 else string_str]. *)
Definition head_100 (string_str : pystr) : pystr :=
  if (100 <? length string_str)%nat then take 100 string_str else string_str.

(** The loop [for api in sensitive_apis] for one string, run on the
    rest [apis] of the list; returning early is the [break]. *)
Fixpoint scan_apis (string_str : pystr) (apis : list pystr)
    (api_calls : list ApiCall) (found_apis : gset pystr)
  : list ApiCall * gset pystr :=
  match apis with
  | [] => (api_calls, found_apis)
  | a :: apis' =>
      if str_in a string_str && negb (bool_decide (a ∈ found_apis)) then
        let api_calls' :=
          (api_calls ++ [{| api := a; found_in := head_100 string_str |}])%list in
        let found_apis' := {[a]} ∪ found_apis in
        if (50 <=? length api_calls')%nat then (api_calls', found_apis')
        else scan_apis string_str apis' api_calls' found_apis'
      else scan_apis string_str apis' api_calls found_apis
  end.

(** The loop [for string_str in all_dex_strings], with its [break]. *)
Fixpoint scan_strings (all_dex_strings : list pystr)
    (api_calls : list ApiCall) (found_apis : gset pystr)
  : list ApiCall * gset pystr :=
  match all_dex_strings with
  | [] => (api_calls, found_apis)
  | string_str :: rest =>
      let '(api_calls', found_apis') :=
        scan_apis string_str sensitive_apis api_calls found_apis in
      if (50 <=? length api_calls')%nat then (api_calls', found_apis')
      else scan_strings rest api_calls' found_apis'
  end.

(** [result["api_calls"]] of [deep_analyze], from the strings of the
    DEX files. *)
Definition extract_api_calls (all_dex_strings : list pystr) : list ApiCall :=
  take 50 (fst (scan_strings all_dex_strings [] ∅)).

(** The entry appended for [a] found in [s]. *)
Definition entry (a s : pystr) : ApiCall := {| api := a; found_in := head_100 s |}.

(** [sub] occurs in [s] as a contiguous piece. *)
Definition occurs_in (sub s : pystr) : Prop :=
  exists l1 l2, s = (l1 ++ sub ++ l2)%list.

(** What the two loops keep true of [api_calls] and [found_apis]. *)
Definition scan_inv (ac : list ApiCall) (f : gset pystr) : Prop :=
  (forall a, a ∈ f <-> a ∈ map api ac)
  /\ NoDup (map api ac)
  /\ (forall a, a ∈ map api ac -> a ∈ sensitive_apis).

(** * Properties *)

(** ** Strings *)

Lemma append_empty_r (s : string) : s +:+ "" = s.
Proof.
  induction s as [|a s IH]; [reflexivity|].
  change (String a (s +:+ "") = String a s). now rewrite IH.
Qed.

Lemma append_assoc (s1 s2 s3 : string) : (s1 +:+ s2) +:+ s3 = s1 +:+ (s2 +:+ s3).
Proof.
  induction s1 as [|a s1 IH]; [reflexivity|].
  change (String a ((s1 +:+ s2) +:+ s3) = String a (s1 +:+ (s2 +:+ s3))).
  now rewrite IH.
Qed.

Lemma length_append (s1 s2 : string) :
  String.length (s1 +:+ s2) = (String.length s1 + String.length s2)%nat.
Proof.
  induction s1 as [|a s1 IH]; [reflexivity|].
  change (S (String.length (s1 +:+ s2)) = S (String.length s1 + String.length s2)).
  now rewrite IH.
Qed.

Lemma has_newline_line (s : string) : has_newline (s +:+ newline) = true.
Proof.
  induction s as [|a s IH]; [reflexivity|].
  change (Ascii.eqb a (Ascii.ascii_of_nat 10) || Ascii.eqb a (Ascii.ascii_of_nat 13)
          || has_newline (s +:+ newline) = true).
  rewrite IH. apply orb_true_r.
Qed.

Lemma line_not_empty (p s : string) : String.eqb (p +:+ s +:+ newline) "" = false.
Proof.
  apply String.eqb_neq. intros H. apply (f_equal String.length) in H.
  rewrite !length_append in H. simpl in H. lia.
Qed.

(** ** The monad and the platform calls *)

(** Closing the installed file object, errors swallowed: the first
    statement of [_open_file]. *)
Lemma close_installed_eq env w :
  match file (writer w) with
  | Some _ => try_except (file_close env) (fun _ => ret tt)
  | None => ret tt
  end w = (after_close env w, Ok tt).
Proof.
  destruct w as [[t fp [[hp hm [|a pend] [|]]|]] d out];
    unfold after_close, disk_after_close, flushable, close_old, close_handle;
    unfold file_close, flush_buffer, the_file, try_except, bind, get_writer; simpl;
    try reflexivity.
  - destruct (close_fault env hp); reflexivity.
  - destruct (flush_fault env hp (String a pend)); simpl; [reflexivity|].
    destruct (close_fault env hp); reflexivity.
Qed.

Lemma open_file_eq env p w :
  _open_file env p w =
    match fault env p with
    | Some e => (after_close env w, Raise e)
    | None => (installed (after_close env w) (current_task_id (writer w)) p, Ok tt)
    end.
Proof.
  unfold _open_file. unfold bind at 1. unfold get_writer at 1. cbv beta iota.
  unfold bind at 1. rewrite close_installed_eq.
  unfold fault, mkdir_parent, py_open, bind.
  destruct (mkdir_fault env p); [reflexivity|].
  destruct (open_fault env p); reflexivity.
Qed.

Lemma set_output_task_eq env t w :
  set_output_task env t w =
    match fault env (task_path t) with
    | Some e => (half_switched env w t, Raise e)
    | None => (logged (installed (half_switched env w t) t (task_path t))
                      (switched_line t), Ok tt)
    end.
Proof.
  unfold set_output_task. fold (task_path t).
  unfold bind at 1. unfold bind at 1.
  change (set_current_task_id t w) with (with_writer w (retask t (writer w)), Ok tt).
  cbv beta iota. rewrite open_file_eq.
  destruct (fault env (task_path t)); reflexivity.
Qed.

Lemma clear_output_task_eq env w :
  clear_output_task env w =
    match fault env default_output_path with
    | Some e => (half_switched env w PNone, Raise e)
    | None => (logged (installed (half_switched env w PNone) PNone default_output_path)
                      (cleared_line (current_task_id (writer w))), Ok tt)
    end.
Proof.
  unfold clear_output_task.
  unfold bind at 1. cbv beta iota. unfold get_writer at 1. cbv beta iota.
  unfold bind at 1. unfold bind at 1.
  change (set_current_task_id PNone w) with (with_writer w (retask PNone (writer w)), Ok tt).
  cbv beta iota. rewrite open_file_eq.
  destruct (fault env default_output_path); reflexivity.
Qed.

Lemma init_eq env d :
  __init__ env (boot d) =
    match mkdir_fault env default_output_path with
    | Some e => (boot d, Raise e)
    | None =>
        match fault env default_output_path with
        | Some e => (boot d, Raise e)
        | None => (logged (installed (boot d) PNone default_output_path)
                     ("[JSONL Writer] Started, default output: " +:+ default_output_path),
                   Ok tt)
        end
    end.
Proof.
  unfold __init__. unfold bind at 1. unfold mkdir_parent at 1.
  destruct (mkdir_fault env default_output_path) eqn:Hm; [reflexivity|].
  cbv beta iota. unfold ret at 1. cbv beta iota.
  unfold bind at 1. unfold bind at 1. unfold bind at 1. unfold bind at 1.
  change (set_current_task_id PNone (boot d)) with (boot d, Ok tt).
  cbv beta iota.
  change (set_current_file_path None (boot d)) with (boot d, Ok tt).
  cbv beta iota.
  change (set_file None (boot d)) with (boot d, Ok tt).
  cbv beta iota. rewrite open_file_eq.
  destruct (fault env default_output_path); reflexivity.
Qed.

(** The three ways the [try] block of [response] can end: raising with
    nothing changed, raising with the line left in the buffer, or with
    the buffer and the line in the file. *)
Lemma response_body_cases env flow w :
  (exists e, response_body env flow w = (w, Raise e))
  \/ (exists h line e,
        file (writer w) = Some h /\ h_closed h = false
        /\ json_dumps env (build_record flow (current_task_id (writer w))) = Ok line
        /\ encode_fault env (line +:+ newline) = None
        /\ flush_fault env (h_path h) (h_pending h +:+ line +:+ newline) = Some e
        /\ response_body env flow w = (buffered w h (line +:+ newline), Raise e))
  \/ (exists h line,
        file (writer w) = Some h /\ h_closed h = false
        /\ json_dumps env (build_record flow (current_task_id (writer w))) = Ok line
        /\ encode_fault env (line +:+ newline) = None
        /\ flush_fault env (h_path h) (h_pending h +:+ line +:+ newline) = None
        /\ response_body env flow w = (recorded w h line flow, Ok tt)).
Proof.
  unfold response_body, bind, get_writer, dumps. cbv beta iota.
  destruct (json_dumps env _) as [line|e] eqn:Hj; [|left; eauto].
  destruct w as [[t fp [[hp hm pend [|]]|]] d out];
    unfold file_write, the_file, bind, get_writer; simpl;
    [left; eauto| |left; eauto].
  destruct (encode_fault env (line +:+ newline)) as [e|] eqn:He; [left; eauto|].
  simpl. rewrite has_newline_line.
  unfold flush_buffer, the_file, bind, get_writer. simpl.
  rewrite line_not_empty.
  destruct (flush_fault env hp (pend +:+ line +:+ newline)) as [e|] eqn:Hf.
  - right; left.
    exists {| h_path := hp; h_mode := hm; h_pending := pend; h_closed := false |}, line, e.
    repeat split; assumption.
  - right; right.
    exists {| h_path := hp; h_mode := hm; h_pending := pend; h_closed := false |}, line.
    split; [reflexivity|]. split; [reflexivity|]. split; [reflexivity|].
    split; [assumption|]. split; [assumption|].
    simpl. unfold file_flush, flush_buffer, the_file, bind, get_writer, recorded. simpl.
    destruct (truthy t); reflexivity.
Qed.

Lemma response_cases env flow w :
  (exists e, response env flow w = (logged w (error_line e), Ok tt))
  \/ (exists h line e,
        file (writer w) = Some h /\ h_closed h = false
        /\ json_dumps env (build_record flow (current_task_id (writer w))) = Ok line
        /\ encode_fault env (line +:+ newline) = None
        /\ flush_fault env (h_path h) (h_pending h +:+ line +:+ newline) = Some e
        /\ response env flow w
           = (logged (buffered w h (line +:+ newline)) (error_line e), Ok tt))
  \/ (exists h line,
        file (writer w) = Some h /\ h_closed h = false
        /\ json_dumps env (build_record flow (current_task_id (writer w))) = Ok line
        /\ encode_fault env (line +:+ newline) = None
        /\ flush_fault env (h_path h) (h_pending h +:+ line +:+ newline) = None
        /\ response env flow w = (recorded w h line flow, Ok tt)).
Proof.
  unfold response, try_except.
  destruct (response_body_cases env flow w)
    as [[e ->]|[(h & line & e & Hf & Hc & Hj & He & Hfl & ->)
               |(h & line & Hf & Hc & Hj & He & Hfl & ->)]].
  - left. eauto.
  - right; left. exists h, line, e. auto 10.
  - right; right. exists h, line. auto 10.
Qed.


Lemma recorded_writer w h line flow :
  writer (recorded w h line flow) = refile (Some (with_pending h "")) (writer w).
Proof. unfold recorded. destruct (truthy _); reflexivity. Qed.

Lemma recorded_disk w h line flow :
  disk (recorded w h line flow)
  = <[h_path h := content (disk w) (h_path h) +:+ h_pending h +:+ line +:+ newline]>
      (disk w).
Proof. unfold recorded. destruct (truthy _); reflexivity. Qed.

(** [response] never touches the task identifier or the recorded path,
    and leaves the installed file object the one it was, whatever it
    does to its buffer. *)
Lemma response_keeps env flow w :
  current_task_id (writer (fst (response env flow w))) = current_task_id (writer w)
  /\ current_file_path (writer (fst (response env flow w)))
     = current_file_path (writer w)
  /\ handle_id <$> file (writer (fst (response env flow w)))
     = handle_id <$> file (writer w).
Proof.
  destruct (response_cases env flow w)
    as [[e ->]|[(h & line & e & Hf & _ & _ & _ & _ & ->)
               |(h & line & Hf & _ & _ & _ & _ & ->)]]; simpl fst.
  - auto.
  - simpl. rewrite Hf. auto.
  - rewrite recorded_writer. simpl. rewrite Hf. auto.
Qed.

Lemma done_cases env w :
  (file (writer w) = None /\ done env w = (w, Ok tt))
  \/ (file (writer w) <> None
      /\ exists out,
           done env w
           = ({| writer := refile None (writer w);
                 disk := disk_after_close env w;
                 stdout := out |}, Ok tt)
           /\ (out = stdout w \/ out = (stdout w ++ ["[JSONL Writer] Closed file"])%list)).
Proof.
  destruct w as [[t fp [[hp hm [|a pend] [|]]|]] d out];
    unfold disk_after_close, flushable;
    unfold done, file_close, flush_buffer, the_file, try_except, bind, get_writer; simpl.
  - right. split; [discriminate|]. eexists. split; [reflexivity|]. now right.
  - right. split; [discriminate|].
    destruct (close_fault env hp); eexists; (split; [reflexivity|]); [now left|now right].
  - right. split; [discriminate|]. eexists. split; [reflexivity|]. now right.
  - right. split; [discriminate|].
    destruct (flush_fault env hp (String a pend)); simpl.
    + eexists. split; [reflexivity|]. now left.
    + destruct (close_fault env hp); eexists; (split; [reflexivity|]); [now left|now right].
  - left. split; reflexivity.
Qed.
(** ** The control handler *)

Lemma do_POST_unreadable env p b w :
  readable b = false ->
  exists e, do_POST env {| req_path := p; req_body := b |} w
            = (logged w (api_error_line e), Ok (bare_response 500)).
Proof.
  destruct b; try discriminate; intros _; eexists; reflexivity.
Qed.

Lemma do_POST_unrouted env p b w :
  readable b = true -> p <> "/set_output" -> p <> "/clear_output" ->
  do_POST env {| req_path := p; req_body := b |} w = (w, Ok (bare_response 404)).
Proof.
  intros Hb H1 H2. apply String.eqb_neq in H1, H2.
  unfold do_POST, try_except, bind. simpl.
  destruct b; try discriminate; simpl; rewrite H1, H2; reflexivity.
Qed.

Lemma do_POST_set_output env fields w :
  do_POST env (set_output_request (BodyData (JObject fields))) w =
    if truthy (task_id_of fields) then
      match set_output_task env (task_id_of fields) w with
      | (w', Ok _) =>
          (w', Ok (json_response 200 [("status", PStr "ok");
                                      ("task_id", task_id_of fields)]))
      | (w', Raise e) => (logged w' (api_error_line e), Ok (bare_response 500))
      end
    else (w, Ok (json_response 400 [("error", PStr "task_id required")])).
Proof.
  unfold do_POST, try_except, bind. simpl. fold (task_id_of fields).
  destruct (truthy (task_id_of fields)); [|reflexivity].
  destruct (set_output_task env (task_id_of fields) w) as [w' [[]|e]]; reflexivity.
Qed.

Lemma do_POST_set_output_empty env w :
  do_POST env (set_output_request BodyEmpty) w
  = (w, Ok (json_response 400 [("error", PStr "task_id required")])).
Proof. reflexivity. Qed.

Lemma do_POST_clear_output env b w :
  readable b = true ->
  do_POST env {| req_path := "/clear_output"; req_body := b |} w =
    match clear_output_task env w with
    | (w', Ok _) => (w', Ok (json_response 200 [("status", PStr "ok")]))
    | (w', Raise e) => (logged w' (api_error_line e), Ok (bare_response 500))
    end.
Proof.
  intros Hb. unfold do_POST, try_except, bind.
  destruct b; try discriminate; simpl;
    destruct (clear_output_task env w) as [w' [[]|e]]; reflexivity.
Qed.

Lemma do_GET_eq p w :
  do_GET p w =
    if String.eqb p "/current_task"
    then (w, Ok (json_response 200
                   [("task_id", current_task_id (writer w));
                    ("output_path", of_path (current_file_path (writer w)))]))
    else (w, Ok (bare_response 404)).
Proof.
  unfold do_GET, try_except. destruct (String.eqb p "/current_task"); reflexivity.
Qed.

(** ** Switching and clearing *)

Lemma perform_switch_eq env o w :
  (forall flow, o <> OnFlowObserved flow) ->
  exists line,
    perform env o w =
      match fault env (target_path o w) with
      | Some e => (half_switched env w (target o w), Raise e)
      | None => (logged (installed (half_switched env w (target o w))
                                   (target o w) (target_path o w)) line, Ok tt)
      end.
Proof.
  intros Hsw. destruct o as [t| |flow]; simpl.
  - eexists. apply set_output_task_eq.
  - eexists. apply clear_output_task_eq.
  - destruct (Hsw flow). reflexivity.
Qed.

Lemma close_handle_closed h : h_closed (close_handle h) = true.
Proof. unfold close_handle. destruct (h_closed h) eqn:E; [exact E|reflexivity]. Qed.


(** Closing hands over at most the buffer of the installed file object. *)
Lemma disk_after_close_cases env w :
  disk_after_close env w = disk w
  \/ exists h,
       file (writer w) = Some h /\ h_closed h = false
       /\ flush_fault env (h_path h) (h_pending h) = None
       /\ disk_after_close env w
          = <[h_path h := content (disk w) (h_path h) +:+ h_pending h]> (disk w).
Proof.
  unfold disk_after_close, flushable.
  destruct (file (writer w)) as [h|]; [|now left].
  destruct (h_closed h) eqn:Hc; [now left|].
  destruct (String.eqb (h_pending h) ""); [now left|]. simpl.
  destruct (flush_fault env (h_path h) (h_pending h)) eqn:Hf; [now left|].
  right. exists h. auto.
Qed.

Lemma grows_refl d : grows d d.
Proof. intros p c H. exists "". now rewrite append_empty_r. Qed.

Lemma grows_trans d1 d2 d3 : grows d1 d2 -> grows d2 d3 -> grows d1 d3.
Proof.
  intros H12 H23 p c H. destruct (H12 p c H) as [s1 H1].
  destruct (H23 p _ H1) as [s2 H2]. exists (s1 +:+ s2).
  now rewrite <- append_assoc.
Qed.

Lemma write_grows (d : gmap string string) p data :
  grows d (<[p := content d p +:+ data]> d).
Proof.
  intros q c H. destruct (decide (p = q)) as [->|Hne].
  - exists data. rewrite lookup_insert_eq. unfold content. now rewrite H.
  - exists "". rewrite lookup_insert_ne by done. now rewrite append_empty_r.
Qed.

Lemma close_grows env w : grows (disk w) (disk_after_close env w).
Proof.
  destruct (disk_after_close_cases env w) as [->|(h & _ & _ & _ & ->)];
    [apply grows_refl|apply write_grows].
Qed.




(** ** The Router State invariant *)

Lemma handle_id_stream h p :
  handle_id h = (p, ModeA, false) -> h = with_pending (stream p) (h_pending h).
Proof.
  destruct h as [hp hm pend hc]. unfold handle_id. simpl.
  intros H. inversion H. reflexivity.
Qed.

Lemma installed_invariant w t p line :
  p = implied_path t -> router_invariant (logged (installed w t p) line).
Proof. intros ->. split; [reflexivity|]. now exists "". Qed.

Lemma init_invariant env d w :
  __init__ env (boot d) = (w, Ok tt) -> router_invariant w.
Proof.
  rewrite init_eq. destruct (mkdir_fault env default_output_path); [discriminate|].
  destruct (fault env default_output_path); [discriminate|].
  intros H. inversion H. now apply installed_invariant.
Qed.

(** C2, as stated, fails: the started addon satisfies the invariant,
    the switch to ["t1"] with [/results/t1] not creatable does not
    preserve it (task ["t1"], path still the default, stream closed). *)
Lemma failed_switch_breaks_invariant :
  router_invariant w_started
  /\ ~ router_invariant (fst (perform env_t1_denied (SwitchToTask (PStr "t1")) w_started)).
Proof.
  split.
  - split; [vm_compute; reflexivity|]. exists "". vm_compute. reflexivity.
  - intros [H _]. vm_compute in H. discriminate H.
Qed.

(** C2, amended: the invariant holds after every operation that
    completes without raising, for a switch to any identifier but
    [None], a clear, and a data-plane write. *)
Theorem invariant_preserved env o w w' :
  router_invariant w -> names_task o ->
  perform env o w = (w', Ok tt) ->
  router_invariant w'.
Proof.
  intros Hinv Hname H. destruct o as [t| |flow]; simpl in H.
  - rewrite set_output_task_eq in H.
    destruct (fault env (task_path t)); [discriminate|].
    inversion H. apply installed_invariant.
    destruct t; try reflexivity. now destruct Hname.
  - rewrite clear_output_task_eq in H.
    destruct (fault env default_output_path); [discriminate|].
    inversion H. now apply installed_invariant.
  - destruct (response_keeps env flow w) as (Ht & Hp & Hid).
    rewrite H in Ht, Hp, Hid. cbn [fst] in Ht, Hp, Hid.
    destruct Hinv as [Hpath [text Hfile]].
    unfold router_invariant. rewrite Ht, Hp. split; [exact Hpath|].
    rewrite Hfile in Hid.
    destruct (file (writer w')) as [h'|]; [|discriminate Hid].
    injection Hid as Hpa Hmo Hcl. exists (h_pending h').
    f_equal. apply handle_id_stream. unfold handle_id. now rewrite Hpa, Hmo, Hcl.
Qed.

Lemma invariant_preserved_witness :
  router_invariant w_started
  /\ router_invariant (fst (perform env_ok (SwitchToTask (PStr "t1")) w_started)).
Proof.
  assert (H0 : router_invariant w_started).
  { split; [vm_compute; reflexivity|]. exists "". vm_compute. reflexivity. }
  split; [exact H0|].
  apply (invariant_preserved env_ok (SwitchToTask (PStr "t1")) w_started).
  - exact H0.
  - simpl. discriminate.
  - vm_compute. reflexivity.
Defined.

(** ** Snapshots *)

(** C3: after [set_output_task t] completes, [get_current_task] returns
    the task identifier [t] and the path [/results/<t>/flows.jsonl],
    and leaves the world as it is. *)
Theorem switch_then_snapshot env (t : string) w w' :
  set_output_task env (PStr t) w = (w', Ok tt) ->
  get_current_task w'
  = (w', Ok [("task_id", PStr t);
             ("output_path", PStr ("/results/" +:+ t +:+ "/flows.jsonl"))]).
Proof.
  rewrite set_output_task_eq.
  destruct (fault env (task_path (PStr t))); [discriminate|].
  intros H. inversion H. reflexivity.
Qed.

Lemma switch_then_snapshot_witness :
  snd (set_output_task env_ok (PStr "job-42") w_started) = Ok tt
  /\ snapshot (fst (set_output_task env_ok (PStr "job-42") w_started))
     = Ok [("task_id", PStr "job-42");
           ("output_path", PStr "/results/job-42/flows.jsonl")].
Proof.
  split; [vm_compute; reflexivity|].
  unfold snapshot.
  rewrite (switch_then_snapshot env_ok "job-42" w_started
             (fst (set_output_task env_ok (PStr "job-42") w_started))).
  - reflexivity.
  - vm_compute. reflexivity.
Defined.

(** C4: where the default file can be opened, [clear_output_task]
    completes from every world, whether a task is active or not; after
    it [get_current_task] returns no task and the default path, which is
    the snapshot from before when no task was active. *)
Theorem clear_then_snapshot env w :
  mkdir_fault env default_output_path = None ->
  open_fault env default_output_path = None ->
  exists w',
    clear_output_task env w = (w', Ok tt)
    /\ get_current_task w'
       = (w', Ok [("task_id", PNone); ("output_path", PStr "/results/flows.jsonl")])
    /\ (task_active w = false ->
        current_file_path (writer w) = Some default_output_path ->
        snapshot w' = snapshot w).
Proof.
  intros Hm Ho. rewrite clear_output_task_eq. unfold fault. rewrite Hm, Ho.
  eexists. split; [reflexivity|]. split; [reflexivity|].
  intros Ha Hp. unfold snapshot, task_active in *. simpl. rewrite Hp.
  destruct (current_task_id (writer w)); try discriminate. reflexivity.
Qed.

Lemma clear_then_snapshot_witness :
  task_active w_started = false
  /\ snapshot (fst (clear_output_task env_ok w_started))
     = Ok [("task_id", PNone); ("output_path", PStr "/results/flows.jsonl")]
  /\ snapshot (fst (clear_output_task env_ok w_t1))
     = Ok [("task_id", PNone); ("output_path", PStr "/results/flows.jsonl")].
Proof.
  split; [reflexivity|]. split.
  - destruct (clear_then_snapshot env_ok w_started eq_refl eq_refl)
      as (w' & Hc & Hs & _).
    rewrite Hc. cbn [fst]. unfold snapshot. rewrite Hs. reflexivity.
  - destruct (clear_then_snapshot env_ok w_t1 eq_refl eq_refl)
      as (w' & Hc & Hs & _).
    rewrite Hc. cbn [fst]. unfold snapshot. rewrite Hs. reflexivity.
Defined.

(** A clear completes exactly when the platform lets the default file
    be opened. *)
Lemma clear_completes_iff env w :
  snd (clear_output_task env w) = Ok tt <-> fault env default_output_path = None.
Proof.
  rewrite clear_output_task_eq.
  destruct (fault env default_output_path); split; intros H; try reflexivity;
    discriminate.
Qed.

(** ** Task identifiers in a running addon *)

Lemma handle_task env rq w :
  current_task_id (writer (fst (handle env rq w))) = current_task_id (writer w)
  \/ current_task_id (writer (fst (handle env rq w))) = PNone
  \/ truthy (current_task_id (writer (fst (handle env rq w)))) = true.
Proof.
  destruct rq as [p|[p b]]; simpl.
  - rewrite do_GET_eq. destruct (String.eqb p "/current_task"); now left.
  - destruct (readable b) eqn:Hb.
    2:{ destruct (do_POST_unreadable env p b w Hb) as [e ->]. now left. }
    destruct (String.eqb p "/set_output") eqn:H1.
    { apply String.eqb_eq in H1. subst p.
      destruct b as [| | |[fields|]]; try discriminate; try (now left).
      pose proof (do_POST_set_output env fields w) as Heq.
      unfold set_output_request in Heq. rewrite Heq.
      destruct (truthy (task_id_of fields)) eqn:Ht; [|now left].
      rewrite set_output_task_eq.
      destruct (fault env (task_path (task_id_of fields))); right; right; exact Ht. }
    destruct (String.eqb p "/clear_output") eqn:H2.
    { apply String.eqb_eq in H2. subst p.
      rewrite (do_POST_clear_output env b w Hb), clear_output_task_eq.
      destruct (fault env default_output_path); right; now left. }
    apply String.eqb_neq in H1, H2.
    rewrite (do_POST_unrouted env p b w Hb H1 H2). now left.
Qed.

Lemma done_keeps env w :
  snd (done env w) = Ok tt
  /\ file (writer (fst (done env w))) = None
  /\ current_task_id (writer (fst (done env w))) = current_task_id (writer w)
  /\ current_file_path (writer (fst (done env w))) = current_file_path (writer w)
  /\ disk (fst (done env w)) = disk_after_close env w.
Proof.
  destruct (done_cases env w) as [[Hf ->]|[_ (out & -> & _)]]; simpl.
  - repeat split; try assumption.
    unfold disk_after_close, flushable. now rewrite Hf.
  - repeat split.
Qed.

Lemma step_task env ev w :
  current_task_id (writer (step env ev w)) = current_task_id (writer w)
  \/ current_task_id (writer (step env ev w)) = PNone
  \/ truthy (current_task_id (writer (step env ev w))) = true.
Proof.
  destruct ev as [rq|flow|]; simpl.
  - apply handle_task.
  - left. apply response_keeps.
  - left. apply done_keeps.
Qed.

(** In a running addon the task identifier is [None] or a value the
    control handler found true. *)
Lemma reachable_task w :
  reachable w ->
  current_task_id (writer w) = PNone \/ truthy (current_task_id (writer w)) = true.
Proof.
  induction 1 as [env d w Hinit|env ev w Hr IH].
  - left. rewrite init_eq in Hinit.
    destruct (mkdir_fault env default_output_path); [discriminate|].
    destruct (fault env default_output_path); [discriminate|].
    inversion Hinit. reflexivity.
  - destruct (step_task env ev w) as [->|[->| ->]]; auto.
Qed.

Lemma reachable_active w :
  reachable w -> truthy (current_task_id (writer w)) = task_active w.
Proof.
  intros Hr. unfold task_active.
  destruct (reachable_task w Hr) as [->|Ht]; [reflexivity|].
  rewrite Ht. destruct (current_task_id (writer w)); try reflexivity. discriminate.
Qed.

Lemma started_reachable : reachable w_started.
Proof. apply (reach_init env_ok ∅). vm_compute. reflexivity. Qed.

(** ** Records *)

(** When the platform lets the line through, [response] records it. *)
Lemma response_recorded env flow w h line :
  file (writer w) = Some h -> h_closed h = false ->
  json_dumps env (build_record flow (current_task_id (writer w))) = Ok line ->
  encode_fault env (line +:+ newline) = None ->
  flush_fault env (h_path h) (h_pending h +:+ line +:+ newline) = None ->
  response env flow w = (recorded w h line flow, Ok tt).
Proof.
  destruct w as [[t fp f] d out]. destruct h as [hp hm pend hc]. simpl.
  intros -> -> Hj He Hfl.
  unfold response, try_except, response_body, recorded, bind, get_writer, dumps.
  cbv beta iota. simpl. rewrite Hj.
  unfold file_write, the_file, bind, get_writer. simpl. rewrite He. simpl.
  rewrite has_newline_line.
  unfold flush_buffer, the_file, bind, get_writer. simpl.
  rewrite line_not_empty, Hfl. simpl.
  unfold file_flush, flush_buffer, the_file, bind, get_writer. simpl.
  destruct (truthy t); reflexivity.
Qed.

(** C5: in a running addon, the record built for a flow has the fields
    ts, method, scheme, host, port, path, url, followed by task_id
    exactly when a task is active, in which case its value is the
    current task identifier; and when the record serialises and the
    platform takes the text, what [response] puts in the current file is
    the serialisation of that record and a newline (after whatever text
    an earlier failed write left in the buffer). *)
Theorem record_fields env flow w h line :
  reachable w ->
  file (writer w) = Some h -> h_closed h = false ->
  json_dumps env (build_record flow (current_task_id (writer w))) = Ok line ->
  encode_fault env (line +:+ newline) = None ->
  flush_fault env (h_path h) (h_pending h +:+ line +:+ newline) = None ->
  keys (build_record flow (current_task_id (writer w)))
  = (base_fields ++ (if task_active w then ["task_id"] else []))%list
  /\ dict_get "task_id" (build_record flow (current_task_id (writer w)))
     = (if task_active w then Some (current_task_id (writer w)) else None)
  /\ disk (fst (response env flow w))
     = <[h_path h := content (disk w) (h_path h)
                     +:+ h_pending h +:+ line +:+ newline]> (disk w).
Proof.
  intros Hr Hf Hc Hj He Hfl. pose proof (reachable_active w Hr) as Ha.
  split; [|split].
  - unfold build_record. rewrite Ha. destruct (task_active w); reflexivity.
  - unfold build_record. rewrite Ha. destruct (task_active w); reflexivity.
  - rewrite (response_recorded env flow w h line Hf Hc Hj He Hfl).
    apply recorded_disk.
Qed.

Lemma record_fields_witness :
  reachable w_t1
  /\ keys (build_record flow_a (current_task_id (writer w_t1)))
     = ["ts"; "method"; "scheme"; "host"; "port"; "path"; "url"; "task_id"]
  /\ dict_get "task_id" (build_record flow_a (current_task_id (writer w_t1)))
     = Some (PStr "t1")
  /\ disk (fst (response env_ok flow_a w_t1)) !! t1_file
     = Some (record_line env_ok (PStr "t1") flow_a)
  /\ record_line env_ok (PStr "t1") flow_a <> "".
Proof.
  assert (H1 : reachable w_t1) by (apply reach_step, started_reachable).
  destruct (record_fields env_ok flow_a w_t1 (stream t1_file) _ H1
              eq_refl eq_refl eq_refl eq_refl eq_refl) as (Hk & Hd & Hdisk).
  split; [exact H1|]. split; [exact Hk|]. split; [exact Hd|]. split.
  - rewrite Hdisk. vm_compute. reflexivity.
  - vm_compute. discriminate.
Defined.

(** Outside a running addon the two notions differ: called directly
    with the empty string, [set_output_task] sets a task identifier that
    [response] finds false, and the record has no task_id. *)
Remark empty_task_id_omitted :
  current_task_id (writer (fst (set_output_task env_ok (PStr "") w_started))) = PStr ""
  /\ keys (build_record flow_a (PStr "")) = base_fields.
Proof. split; reflexivity. Qed.



(** ** The control plane *)

(** C6, as stated, fails: a [POST /set_output] whose body is JSON but
    not an object carries no task_id, yet is answered 500, not 400; and
    one with a task_id is answered 500, not 200, when the switch
    raises. *)
Lemma set_output_not_always_400_or_200 :
  snd (do_POST env_ok (set_output_request (BodyData JNonObject)) w_started)
  = Ok (bare_response 500)
  /\ snd (do_POST env_ok (set_output_request (BodyData JNonObject)) w_started)
     <> Ok (json_response 400 [("error", PStr "task_id required")])
  /\ snd (handle env_t1_denied post_t1 w_started) = Ok (bare_response 500).
Proof.
  split; [reflexivity|]. split; [discriminate|]. vm_compute. reflexivity.
Qed.

(** C6, amended: [POST /set_output] with no body, or with a JSON object
    whose [task_id] is missing or false (empty string, null, 0, ...),
    answers 400 with [{"error": "task_id required"}] and leaves the
    world, hence the snapshot, as it is.  With an object whose [task_id]
    is true it calls [set_output_task] and answers 200 with
    [{"status": "ok", "task_id": ...}] when that call completes, 500
    when it raises.  With a body that cannot be read or decoded, or that
    is JSON but not an object, it answers 500 and the registry is as it
    was. *)
Theorem set_output_validates env fields w :
  do_POST env (set_output_request BodyEmpty) w
  = (w, Ok (json_response 400 [("error", PStr "task_id required")]))
  /\ do_POST env (set_output_request (BodyData (JObject (delete "task_id" fields)))) w
     = (w, Ok (json_response 400 [("error", PStr "task_id required")]))
  /\ do_POST env (set_output_request (BodyData (JObject (<["task_id" := PStr ""]> fields)))) w
     = (w, Ok (json_response 400 [("error", PStr "task_id required")]))
  /\ do_POST env (set_output_request (BodyData (JObject fields))) w
     = (if truthy (task_id_of fields) then
          match set_output_task env (task_id_of fields) w with
          | (w', Ok _) =>
              (w', Ok (json_response 200 [("status", PStr "ok");
                                          ("task_id", task_id_of fields)]))
          | (w', Raise e) => (logged w' (api_error_line e), Ok (bare_response 500))
          end
        else (w, Ok (json_response 400 [("error", PStr "task_id required")])))
  /\ (exists e, do_POST env (set_output_request BodyBadLength) w
                = (logged w (api_error_line e), Ok (bare_response 500)))
  /\ (exists e, do_POST env (set_output_request BodyUndecodable) w
                = (logged w (api_error_line e), Ok (bare_response 500)))
  /\ (exists e, do_POST env (set_output_request (BodyData JNonObject)) w
                = (logged w (api_error_line e), Ok (bare_response 500))).
Proof.
  split; [reflexivity|]. split; [|split; [|split]].
  - rewrite do_POST_set_output. unfold task_id_of.
    rewrite lookup_delete_eq. reflexivity.
  - rewrite do_POST_set_output. unfold task_id_of.
    rewrite lookup_insert_eq. reflexivity.
  - apply do_POST_set_output.
  - repeat split; eexists; reflexivity.
Qed.

(** The two requests of the specification's examples. *)
Example set_output_empty_object :
  handle env_ok (POST (set_output_request (BodyData (JObject ∅)))) w_t1
  = (w_t1, Ok (json_response 400 [("error", PStr "task_id required")])).
Proof. vm_compute. reflexivity. Qed.

Example set_output_t1 :
  snd (handle env_ok post_t1 w_started)
  = Ok (json_response 200 [("status", PStr "ok"); ("task_id", PStr "t1")])
  /\ snapshot w_t1
     = Ok [("task_id", PStr "t1"); ("output_path", PStr "/results/t1/flows.jsonl")].
Proof. split; vm_compute; reflexivity. Qed.

(** C8, as stated, fails: a POST to a path that is no endpoint, with a
    body that is not JSON, is answered 500, not 404. *)
Lemma unrouted_bad_body_is_500 :
  unrouted post_nowhere_bad_body = true
  /\ snd (handle env_ok post_nowhere_bad_body w_started) = Ok (bare_response 500)
  /\ snd (handle env_ok post_nowhere_bad_body w_started) <> Ok (bare_response 404).
Proof.
  split; [reflexivity|]. split; [reflexivity|].
  vm_compute. discriminate.
Qed.

(** C8, amended: a GET to a path other than [/current_task], and a POST
    to a path other than [/set_output] and [/clear_output] whose body is
    read and decoded without an exception, is answered 404 and the world
    is as before; such a POST whose body is not is answered 500, with
    nothing changed but one logged line. *)
Theorem unrouted_request env rq w :
  unrouted rq = true ->
  (readable (body_of rq) = true
   /\ handle env rq w = (w, Ok (bare_response 404)))
  \/ (readable (body_of rq) = false
      /\ exists e, handle env rq w
                   = (logged w (api_error_line e), Ok (bare_response 500))).
Proof.
  destruct rq as [p|[p b]]; simpl; intros Hu.
  - left. split; [reflexivity|]. rewrite do_GET_eq.
    destruct (String.eqb p "/current_task"); [discriminate|reflexivity].
  - apply andb_prop in Hu as [H1 H2].
    apply negb_true_iff, String.eqb_neq in H1, H2.
    destruct (readable b) eqn:Hb.
    + left. split; [reflexivity|]. now apply do_POST_unrouted.
    + right. split; [reflexivity|]. now apply do_POST_unreadable.
Qed.

Lemma unrouted_request_witness :
  unrouted (GET "/set_output") = true
  /\ handle env_ok (GET "/set_output") w_t1 = (w_t1, Ok (bare_response 404)).
Proof.
  split; [reflexivity|].
  destruct (unrouted_request env_ok (GET "/set_output") w_t1 eq_refl)
    as [[_ H]|[H _]]; [exact H|discriminate H].
Defined.

(** ** Files only grow *)

(** Opening for append keeps every file as it is. *)
Lemma open_append_keeps (d : gmap string string) p q c :
  d !! q = Some c -> <[p := content d p]> d !! q = Some c.
Proof.
  intros H. destruct (decide (p = q)) as [->|Hne].
  - rewrite lookup_insert_eq. unfold content. now rewrite H.
  - now rewrite lookup_insert_ne.
Qed.

(** Opening for append a file that exists changes nothing on disk. *)
Lemma open_append_existing (d : gmap string string) p :
  is_Some (d !! p) -> <[p := content d p]> d = d.
Proof.
  intros [c H]. apply insert_id. unfold content. now rewrite H.
Qed.

Lemma open_append_grows (d : gmap string string) p : grows d (<[p := content d p]> d).
Proof.
  intros q c H. exists "". rewrite append_empty_r. now apply open_append_keeps.
Qed.

(** Had the file been opened with "w", its content would be lost. *)
Remark open_w_truncates env p w :
  open_fault env p = None ->
  disk (fst (py_open env p ModeW w)) !! p = Some "".
Proof.
  intros Ho. unfold py_open. rewrite Ho. simpl. apply lookup_insert_eq.
Qed.

Lemma half_switched_grows env w t : grows (disk w) (disk (half_switched env w t)).
Proof. exact (close_grows env (with_writer w (retask t (writer w)))). Qed.

Lemma set_output_task_grows env t w :
  grows (disk w) (disk (fst (set_output_task env t w))).
Proof.
  rewrite set_output_task_eq.
  destruct (fault env (task_path t)); simpl fst; [apply half_switched_grows|].
  eapply grows_trans; [apply (half_switched_grows env w t)|apply open_append_grows].
Qed.

Lemma clear_output_task_grows env w :
  grows (disk w) (disk (fst (clear_output_task env w))).
Proof.
  rewrite clear_output_task_eq.
  destruct (fault env default_output_path); simpl fst; [apply half_switched_grows|].
  eapply grows_trans; [apply (half_switched_grows env w PNone)|apply open_append_grows].
Qed.

Lemma init_grows env d : grows d (disk (fst (__init__ env (boot d)))).
Proof.
  rewrite init_eq.
  destruct (mkdir_fault env default_output_path); simpl; [apply grows_refl|].
  destruct (fault env default_output_path); simpl; [apply grows_refl|].
  apply open_append_grows.
Qed.

Lemma response_grows env flow w : grows (disk w) (disk (fst (response env flow w))).
Proof.
  destruct (response_cases env flow w)
    as [[e ->]|[(h & line & e & _ & _ & _ & _ & _ & ->)
               |(h & line & _ & _ & _ & _ & _ & ->)]]; simpl fst.
  - apply grows_refl.
  - apply grows_refl.
  - rewrite recorded_disk. apply write_grows.
Qed.

Lemma handle_grows env rq w : grows (disk w) (disk (fst (handle env rq w))).
Proof.
  destruct rq as [p|[p b]]; simpl.
  - rewrite do_GET_eq. destruct (String.eqb p "/current_task"); apply grows_refl.
  - destruct (readable b) eqn:Hb.
    2:{ destruct (do_POST_unreadable env p b w Hb) as [e ->]. apply grows_refl. }
    destruct (String.eqb p "/set_output") eqn:H1.
    { apply String.eqb_eq in H1. subst p.
      destruct b as [| | |[fields|]]; try discriminate; try apply grows_refl.
      pose proof (do_POST_set_output env fields w) as Heq.
      unfold set_output_request in Heq. rewrite Heq.
      destruct (truthy (task_id_of fields)); [|apply grows_refl].
      pose proof (set_output_task_grows env (task_id_of fields) w) as Hg.
      destruct (set_output_task env (task_id_of fields) w) as [w' [[]|e]]; exact Hg. }
    destruct (String.eqb p "/clear_output") eqn:H2.
    { apply String.eqb_eq in H2. subst p.
      rewrite (do_POST_clear_output env b w Hb).
      pose proof (clear_output_task_grows env w) as Hg.
      destruct (clear_output_task env w) as [w' [[]|e]]; exact Hg. }
    apply String.eqb_neq in H1, H2.
    rewrite (do_POST_unrouted env p b w Hb H1 H2). apply grows_refl.
Qed.

Lemma step_grows env ev w : grows (disk w) (disk (step env ev w)).
Proof.
  destruct ev as [rq|flow|]; simpl.
  - apply handle_grows.
  - apply response_grows.
  - destruct (done_keeps env w) as (_ & _ & _ & _ & ->). apply close_grows.
Qed.

Lemma run_grows evs w : grows (disk w) (disk (run evs w)).
Proof.
  revert w. induction evs as [|[env ev] evs IH]; intros w; simpl.
  - apply grows_refl.
  - eapply grows_trans; [apply step_grows|apply IH].
Qed.

Lemma half_switched_open env w t e h :
  file (writer (fst (half_switched env w t, @Raise unit e))) = Some h ->
  h_closed h = false -> h_mode h = ModeA.
Proof.
  simpl. destruct (file (writer w)) as [h0|]; simpl; [|discriminate].
  intros Hh Hc. inversion Hh; subst h. rewrite close_handle_closed in Hc.
  discriminate.
Qed.

Lemma installed_open w t p line h :
  file (writer (fst (logged (installed w t p) line, Ok tt))) = Some h ->
  h_closed h = false -> h_mode h = ModeA.
Proof. simpl. intros Hh _. inversion Hh. reflexivity. Qed.

(** C9: every open the registry performs is for append.  A file that
    exists is never cut short: through a switch, a repeated switch to
    the same identifier, a clear, the start of the addon, and any run of
    requests, flows and shutdown, its old content stays a prefix of the
    new.  The stream left open by a switch or a clear is one opened for
    append. *)
Theorem files_never_truncated env t w p c evs :
  disk w !! p = Some c ->
  (exists s, disk (fst (set_output_task env t w)) !! p = Some (c +:+ s))
  /\ (exists s, disk (fst (set_output_task env t (fst (set_output_task env t w)))) !! p
                = Some (c +:+ s))
  /\ (exists s, disk (fst (clear_output_task env w)) !! p = Some (c +:+ s))
  /\ (exists s, disk (fst (__init__ env (boot (disk w)))) !! p = Some (c +:+ s))
  /\ (exists s, disk (run evs w) !! p = Some (c +:+ s))
  /\ (forall h, file (writer (fst (set_output_task env t w))) = Some h ->
       h_closed h = false -> h_mode h = ModeA)
  /\ (forall h, file (writer (fst (clear_output_task env w))) = Some h ->
       h_closed h = false -> h_mode h = ModeA).
Proof.
  intros H.
  split; [now apply set_output_task_grows|].
  split.
  { apply (grows_trans _ _ _ (set_output_task_grows env t w)
             (set_output_task_grows env t _)), H. }
  split; [now apply clear_output_task_grows|].
  split; [now apply init_grows|].
  split; [now apply run_grows|].
  split; intros h.
  - rewrite set_output_task_eq.
    destruct (fault env (task_path t)); [apply half_switched_open|apply installed_open].
  - rewrite clear_output_task_eq.
    destruct (fault env default_output_path); [apply half_switched_open|apply installed_open].
Qed.

Lemma files_never_truncated_witness :
  disk w_recorded !! t1_file = Some (content (disk w_recorded) t1_file)
  /\ content (disk w_recorded) t1_file <> ""
  /\ exists s, disk (fst (set_output_task env_ok (PStr "t1") w_recorded)) !! t1_file
               = Some (content (disk w_recorded) t1_file +:+ s).
Proof.
  assert (H : disk w_recorded !! t1_file = Some (content (disk w_recorded) t1_file))
    by (vm_compute; reflexivity).
  split; [exact H|]. split; [vm_compute; discriminate|].
  exact (proj1 (files_never_truncated env_ok (PStr "t1") w_recorded t1_file _ [] H)).
Defined.

(** ** No validation in the registry *)

(** C10: [set_output_task] takes any string as it is.  Where the
    platform lets the interpolated path be opened, the call completes
    and installs the identifier [t] and the path
    ["/results/" + t + "/flows.jsonl"], whatever [t] contains; it is
    [do_POST] that rejects a missing or empty identifier. *)
Theorem switch_takes_any_string env (t : string) w fields :
  mkdir_fault env ("/results/" +:+ t +:+ "/flows.jsonl") = None ->
  open_fault env ("/results/" +:+ t +:+ "/flows.jsonl") = None ->
  (exists w',
     set_output_task env (PStr t) w = (w', Ok tt)
     /\ current_task_id (writer w') = PStr t
     /\ current_file_path (writer w') = Some ("/results/" +:+ t +:+ "/flows.jsonl")
     /\ file (writer w') = Some (stream ("/results/" +:+ t +:+ "/flows.jsonl")))
  /\ fst (do_POST env (set_output_request (BodyData (JObject (<["task_id" := PStr ""]> fields)))) w) = w
  /\ fst (do_POST env (set_output_request (BodyData (JObject (delete "task_id" fields)))) w) = w.
Proof.
  intros Hm Ho. split; [|split].
  - rewrite set_output_task_eq. unfold fault, task_path. simpl py_str.
    rewrite Hm, Ho. eexists. repeat split.
  - rewrite do_POST_set_output. unfold task_id_of.
    rewrite lookup_insert_eq. reflexivity.
  - rewrite do_POST_set_output. unfold task_id_of.
    rewrite lookup_delete_eq. reflexivity.
Qed.

Lemma switch_takes_any_string_witness :
  current_file_path (writer (fst (set_output_task env_ok (PStr "") w_started)))
  = Some "/results//flows.jsonl"
  /\ current_file_path (writer (fst (set_output_task env_ok (PStr "../../etc") w_started)))
     = Some "/results/../../etc/flows.jsonl"
  /\ current_file_path (writer (fst (set_output_task env_ok (PStr "a/b") w_started)))
     = Some "/results/a/b/flows.jsonl".
Proof.
  split; [|split].
  - destruct (switch_takes_any_string env_ok "" w_started ∅ eq_refl eq_refl)
      as [(w' & -> & _ & Hp & _) _]. exact Hp.
  - destruct (switch_takes_any_string env_ok "../../etc" w_started ∅ eq_refl eq_refl)
      as [(w' & -> & _ & Hp & _) _]. exact Hp.
  - destruct (switch_takes_any_string env_ok "a/b" w_started ∅ eq_refl eq_refl)
      as [(w' & -> & _ & Hp & _) _]. exact Hp.
Defined.

(** * Further properties of the writer *)

(** ** Outcomes of a POST *)

Lemma truthy_not_none t : truthy t = true -> implied_path t = task_path t.
Proof. destruct t; try reflexivity. discriminate. Qed.

(** The four ways a POST can end. *)
Lemma do_POST_cases env req w :
  (exists r, do_POST env req w = (w, Ok r) /\ (status r = 400 \/ status r = 404))
  \/ (exists e, do_POST env req w
                 = (logged w (api_error_line e), Ok (bare_response 500)))
  \/ (exists t e, do_POST env req w
                   = (logged (half_switched env w t) (api_error_line e),
                      Ok (bare_response 500)))
  \/ (exists t line r,
        do_POST env req w
        = (logged (installed (half_switched env w t) t (implied_path t)) line, Ok r)
        /\ status r = 200
        /\ ((exists fields,
               req = set_output_request (BodyData (JObject fields))
               /\ t = task_id_of fields /\ truthy t = true)
            \/ (req_path req = "/clear_output" /\ t = PNone))).
Proof.
  destruct req as [p b].
  destruct (readable b) eqn:Hb.
  2:{ right; left. now apply do_POST_unreadable. }
  destruct (String.eqb p "/set_output") eqn:H1.
  { apply String.eqb_eq in H1. subst p.
    destruct b as [| | |[fields|]]; try discriminate.
    - left. eexists. split; [reflexivity|]. now left.
    - pose proof (do_POST_set_output env fields w) as Heq.
      unfold set_output_request in Heq. rewrite Heq.
      destruct (truthy (task_id_of fields)) eqn:Ht.
      + rewrite set_output_task_eq.
        destruct (fault env (task_path (task_id_of fields))) as [e|].
        * right; right; left. eauto.
        * right; right; right. rewrite <- (truthy_not_none _ Ht).
          eexists _, _, _. split; [reflexivity|]. split; [reflexivity|].
          left. exists fields. auto.
      + left. eexists. split; [reflexivity|]. now left.
    - right; left. eexists. reflexivity. }
  destruct (String.eqb p "/clear_output") eqn:H2.
  { apply String.eqb_eq in H2. subst p.
    rewrite (do_POST_clear_output env b w Hb), clear_output_task_eq.
    destruct (fault env default_output_path) as [e|].
    - right; right; left. eauto.
    - right; right; right. eexists PNone, _, _. split; [reflexivity|].
      split; [reflexivity|]. now right. }
  apply String.eqb_neq in H1, H2. left.
  rewrite (do_POST_unrouted env p b w Hb H1 H2).
  eexists. split; [reflexivity|]. now right.
Qed.

(** X1: a POST never raises into the HTTP server and is answered 200,
    400, 404 or 500.  A 200 is given only to a [/set_output] whose
    object has a true task_id, and then the writer holds that task
    identifier, its path and a fresh stream on it, or to a
    [/clear_output], and then the writer holds no task, the default path
    and a fresh stream on it.  A 400 or 404 means the world is exactly
    as before; a 500 leaves the recorded output path as before and cuts
    no file short. *)
Theorem post_status_meaning env req w :
  exists r,
    snd (do_POST env req w) = Ok r
    /\ (status r = 200 \/ status r = 400 \/ status r = 404 \/ status r = 500)
    /\ (status r = 200 ->
        (exists fields,
           req = set_output_request (BodyData (JObject fields))
           /\ truthy (task_id_of fields) = true
           /\ writer (fst (do_POST env req w))
              = switched_writer (task_id_of fields) (task_path (task_id_of fields)))
        \/ (req_path req = "/clear_output"
            /\ writer (fst (do_POST env req w))
               = switched_writer PNone default_output_path))
    /\ (status r = 400 \/ status r = 404 -> fst (do_POST env req w) = w)
    /\ (status r = 500 ->
        current_file_path (writer (fst (do_POST env req w)))
        = current_file_path (writer w)
        /\ grows (disk w) (disk (fst (do_POST env req w)))).
Proof.
  destruct (do_POST_cases env req w)
    as [(r & -> & Hr)|[(e & ->)|[(t & e & ->)|(t & line & r & -> & Hr & Hreq)]]];
    eexists; (split; [reflexivity|]); simpl.
  - split; [tauto|]. split; [|split]; [| reflexivity |];
      intros H; rewrite H in Hr; destruct Hr; discriminate.
  - split; [tauto|]. split; [discriminate|]. split.
    + intros [H|H]; discriminate H.
    + intros _. split; [reflexivity|apply grows_refl].
  - split; [tauto|]. split; [discriminate|]. split.
    + intros [H|H]; discriminate H.
    + intros _. split; [reflexivity|apply (half_switched_grows env w t)].
  - split; [tauto|]. split.
    + intros _. destruct Hreq as [(fields & -> & -> & Ht)|[Hp ->]].
      * left. exists fields. split; [reflexivity|]. split; [exact Ht|].
        now rewrite (truthy_not_none _ Ht).
      * right. split; [exact Hp|reflexivity].
    + split; [|]; intros H; rewrite Hr in H; [destruct H|]; discriminate.
Qed.

(** ** Shutdown *)

Lemma done_no_file env w : file (writer w) = None -> done env w = (w, Ok tt).
Proof.
  destruct w as [[t fp f] d out]. simpl. intros ->. reflexivity.
Qed.


(** X3: after [done] the addon keeps answering the proxy engine but
    every flow is dropped: [response] writes nothing and logs one error,
    whatever the platform; and a second [done] changes nothing. *)
Theorem after_done_dropped env env' flow w :
  (exists e, response env' flow (fst (done env w))
             = (logged (fst (done env w)) (error_line e), Ok tt))
  /\ done env' (fst (done env w)) = (fst (done env w), Ok tt).
Proof.
  pose proof (done_keeps env w) as (_ & Hf & _).
  split.
  - destruct (response_cases env' flow (fst (done env w)))
      as [[e He]|[(h & line & e & Hh & _)|(h & line & Hh & _)]];
      [eauto|congruence|congruence].
  - now apply done_no_file.
Qed.

(** ** What a completed switch leaves *)

(** X4: a completed switch or clear leaves a writer state that depends
    on the new task identifier only, not on the state before: identifier,
    path and a fresh open stream at that path, whose file exists.  In
    particular it repairs what a failed switch or [done] left behind. *)
Theorem completed_switch_state env o w w' :
  (forall flow, o <> OnFlowObserved flow) ->
  perform env o w = (w', Ok tt) ->
  writer w' = switched_writer (target o w) (target_path o w)
  /\ is_Some (disk w' !! target_path o w).
Proof.
  intros Hsw H. destruct (perform_switch_eq env o w Hsw) as [line Heq].
  rewrite Heq in H. destruct (fault env (target_path o w)); [discriminate|].
  inversion H. split; [reflexivity|]. simpl. rewrite lookup_insert_eq. eauto.
Qed.

Lemma completed_switch_state_witness :
  snd (perform env_t1_denied (SwitchToTask (PStr "t1")) w_started) = Raise denied
  /\ writer (fst (perform env_ok Clear
                     (fst (perform env_t1_denied (SwitchToTask (PStr "t1")) w_started))))
     = switched_writer PNone default_output_path.
Proof.
  split; [vm_compute; reflexivity|].
  refine (proj1 (completed_switch_state env_ok Clear
                   (fst (perform env_t1_denied (SwitchToTask (PStr "t1")) w_started))
                   _ _ _)).
  - intros flow. discriminate.
  - vm_compute. reflexivity.
Defined.

(** X5: closing the old file is best effort: whether a switch completes
    and the writer state it leaves do not depend on whether flushing or
    closing the old file raises, only on [mkdir] and [open] for the new
    path. *)
Theorem close_failure_ignored env1 env2 t w :
  mkdir_fault env1 (task_path t) = mkdir_fault env2 (task_path t) ->
  open_fault env1 (task_path t) = open_fault env2 (task_path t) ->
  snd (set_output_task env1 t w) = snd (set_output_task env2 t w)
  /\ writer (fst (set_output_task env1 t w)) = writer (fst (set_output_task env2 t w)).
Proof.
  intros Hm Ho. rewrite !set_output_task_eq. unfold fault. rewrite Hm, Ho.
  destruct (mkdir_fault env2 (task_path t)); [split; reflexivity|].
  destruct (open_fault env2 (task_path t)); split; reflexivity.
Qed.

Lemma close_failure_ignored_witness :
  close_fault env_close_fails "/results/flows.jsonl" <> None
  /\ snd (set_output_task env_close_fails (PStr "t1") w_started) = Ok tt
  /\ writer (fst (set_output_task env_close_fails (PStr "t1") w_started))
     = writer (fst (set_output_task env_ok (PStr "t1") w_started)).
Proof.
  split; [discriminate|].
  destruct (close_failure_ignored env_close_fails env_ok (PStr "t1") w_started
              eq_refl eq_refl) as [Hr Hw].
  split; [rewrite Hr; vm_compute; reflexivity|exact Hw].
Defined.

(** X6: after a completed switch the task file exists: with its earlier
    content as a prefix when it existed, and empty when it did not and
    no file object was installed.  A path that is neither the task path
    nor the path of the file object installed before is left as it
    is. *)
Theorem switch_creates_file env t w w' :
  set_output_task env t w = (w', Ok tt) ->
  (exists s, disk w' !! task_path t = Some (content (disk w) (task_path t) +:+ s))
  /\ (file (writer w) = None ->
      disk w' !! task_path t = Some (content (disk w) (task_path t)))
  /\ (forall q, q <> task_path t ->
        (forall h, file (writer w) = Some h -> q <> h_path h) ->
        disk w' !! q = disk w !! q).
Proof.
  rewrite set_output_task_eq.
  destruct (fault env (task_path t)); [discriminate|].
  intros H. inversion H. simpl. clear H.
  destruct (disk_after_close_cases env (with_writer w (retask t (writer w))))
    as [Heq|(h & Hf & Hc & Hfl & Heq)];
    change (disk (half_switched env w t))
      with (disk_after_close env (with_writer w (retask t (writer w))));
    rewrite Heq; simpl in *.
  - split; [|split].
    + exists "". rewrite lookup_insert_eq. now rewrite append_empty_r.
    + intros _. apply lookup_insert_eq.
    + intros q Hq _. now rewrite lookup_insert_ne.
  - split; [|split].
    + rewrite lookup_insert_eq. unfold content at 1.
      destruct (decide (h_path h = task_path t)) as [Hp|Hp].
      * rewrite Hp, lookup_insert_eq. simpl. eauto.
      * rewrite lookup_insert_ne by done. exists "". now rewrite append_empty_r.
    + intros Hn. congruence.
    + intros q Hq Hh. rewrite lookup_insert_ne by done.
      rewrite lookup_insert_ne; [reflexivity|]. intros Heq'. now apply (Hh h Hf).
Qed.

Lemma switch_creates_file_witness :
  disk w_started !! t1_file = None
  /\ exists s, disk (fst (set_output_task env_ok (PStr "t1") w_started)) !! t1_file
               = Some (content (disk w_started) t1_file +:+ s).
Proof.
  assert (H1 : set_output_task env_ok (PStr "t1") w_started
               = (fst (set_output_task env_ok (PStr "t1") w_started), Ok tt))
    by (vm_compute; reflexivity).
  split; [vm_compute; reflexivity|].
  exact (proj1 (switch_creates_file env_ok (PStr "t1") w_started _ H1)).
Defined.

(** ** Where records go *)

(** X7: while the Router State invariant holds, a flow whose record
    serialises and whose text the platform takes is appended, as one
    line, to the file of the current task (the default file when none is
    active), after whatever text an earlier failed write left in the
    buffer of the stream; the buffer is then empty, no other path
    changes, and a line is printed only when a task is active. *)
Theorem record_lands_in_task_file env flow w h line :
  router_invariant w ->
  file (writer w) = Some h ->
  json_dumps env (build_record flow (current_task_id (writer w))) = Ok line ->
  encode_fault env (line +:+ newline) = None ->
  flush_fault env (implied_path (current_task_id (writer w)))
              (h_pending h +:+ line +:+ newline) = None ->
  snd (response env flow w) = Ok tt
  /\ disk (fst (response env flow w))
     = <[implied_path (current_task_id (writer w))
         := content (disk w) (implied_path (current_task_id (writer w)))
            +:+ h_pending h +:+ line +:+ newline]> (disk w)
  /\ file (writer (fst (response env flow w))) = Some (with_pending h "")
  /\ stdout (fst (response env flow w))
     = if truthy (current_task_id (writer w))
       then (stdout w ++ [flow_line (current_task_id (writer w)) flow])%list
       else stdout w.
Proof.
  intros [_ [text Hinv]] Hf Hj He Hfl.
  assert (Hh : h = with_pending (stream (implied_path (current_task_id (writer w)))) text)
    by congruence.
  assert (Hp : h_path h = implied_path (current_task_id (writer w)))
    by (now rewrite Hh).
  assert (Hc : h_closed h = false) by (now rewrite Hh).
  rewrite <- Hp in Hfl.
  rewrite (response_recorded env flow w h line Hf Hc Hj He Hfl). cbn [fst snd].
  split; [reflexivity|]. split; [rewrite <- Hp; apply recorded_disk|].
  split; [now rewrite recorded_writer|].
  unfold recorded. destruct (truthy _); reflexivity.
Qed.

Lemma record_lands_in_task_file_witness :
  router_invariant w_t1
  /\ disk (fst (response env_ok flow_a w_t1)) !! t1_file
     = Some (record_line env_ok (PStr "t1") flow_a)
  /\ disk (fst (response env_ok flow_a w_t1)) !! default_output_path
     = disk w_t1 !! default_output_path.
Proof.
  assert (Hinv : router_invariant w_t1).
  { split; [vm_compute; reflexivity|]. exists "". vm_compute. reflexivity. }
  split; [exact Hinv|].
  destruct (record_lands_in_task_file env_ok flow_a w_t1 (stream t1_file) _ Hinv
              eq_refl eq_refl eq_refl eq_refl) as (_ & -> & _).
  split; vm_compute; reflexivity.
Defined.

Lemma join_cons s l : join (s :: l) = s +:+ join l.
Proof. reflexivity. Qed.

(** X8: flows reported one after the other through an open file object
    with nothing in its buffer, each serialising and handed to the file
    without error, are appended to that file in the order reported, one
    line each and nothing in between; every other path, the task
    identifier and the recorded path are as before. *)
Theorem flows_appended_in_order env flows w h :
  file (writer w) = Some h -> h_closed h = false -> h_pending h = "" ->
  (forall flow, flow ∈ flows ->
     exists line,
       json_dumps env (build_record flow (current_task_id (writer w))) = Ok line
       /\ encode_fault env (line +:+ newline) = None
       /\ flush_fault env (h_path h) (line +:+ newline) = None) ->
  content (disk (observe_all env flows w)) (h_path h)
  = content (disk w) (h_path h)
    +:+ join (map (record_line env (current_task_id (writer w))) flows)
  /\ (forall q, q <> h_path h -> disk (observe_all env flows w) !! q = disk w !! q)
  /\ file (writer (observe_all env flows w)) = Some h
  /\ current_task_id (writer (observe_all env flows w)) = current_task_id (writer w).
Proof.
  revert w. induction flows as [|flow flows IH]; intros w Hf Hc Hpe Hall.
  - simpl. split; [now rewrite append_empty_r|]. split; [intros; reflexivity|].
    split; [exact Hf|reflexivity].
  - destruct (Hall flow) as (line & Hj & He & Hfl); [apply elem_of_cons; now left|].
    change (observe_all env (flow :: flows) w)
      with (observe_all env flows (fst (response env flow w))).
    assert (Hfl' : flush_fault env (h_path h) (h_pending h +:+ line +:+ newline) = None)
      by (rewrite Hpe; exact Hfl).
    pose proof (response_recorded env flow w h line Hf Hc Hj He Hfl') as Hr.
    assert (Hh : with_pending h "" = h).
    { destruct h as [hp hm pend hc]. simpl in Hpe. now subst pend. }
    assert (Hw : writer (fst (response env flow w)) = writer w).
    { rewrite Hr. simpl fst. rewrite recorded_writer, Hh.
      destruct w as [[t fp f] d out]. simpl in *. now subst f. }
    destruct (IH (fst (response env flow w))) as (IH1 & IH2 & IH3 & IH4).
    { now rewrite Hw. }
    { exact Hc. }
    { exact Hpe. }
    { rewrite Hw. intros f Hin. apply Hall. apply elem_of_cons. now right. }
    rewrite Hw in IH1, IH4. split; [|split; [|split]].
    + assert (Hd : content (disk (fst (response env flow w))) (h_path h)
                   = content (disk w) (h_path h) +:+ line +:+ newline).
      { rewrite Hr. simpl fst. rewrite recorded_disk, Hpe.
        unfold content at 1. now rewrite lookup_insert_eq. }
      rewrite IH1, Hd.
      change (map (record_line env (current_task_id (writer w))) (flow :: flows))
        with (record_line env (current_task_id (writer w)) flow
              :: map (record_line env (current_task_id (writer w))) flows).
      rewrite join_cons. unfold record_line at 2. rewrite Hj.
      now rewrite !append_assoc.
    + intros q Hq. rewrite (IH2 q Hq), Hr. simpl fst. rewrite recorded_disk.
      now rewrite lookup_insert_ne.
    + exact IH3.
    + exact IH4.
Qed.

Lemma flows_appended_in_order_witness :
  content (disk (observe_all env_ok [flow_a; flow_b] w_t1)) t1_file
  = record_line env_ok (PStr "t1") flow_a +:+ record_line env_ok (PStr "t1") flow_b.
Proof.
  destruct (flows_appended_in_order env_ok [flow_a; flow_b] w_t1 (stream t1_file))
    as (H & _).
  - vm_compute. reflexivity.
  - reflexivity.
  - reflexivity.
  - intros flow _. eexists. repeat split.
  - simpl h_path in H. rewrite H. vm_compute. reflexivity.
Defined.

(** ** The recorded path and the installed file object *)

Lemma half_switched_agrees env w t :
  handle_agrees (writer w) -> handle_agrees (writer (half_switched env w t)).
Proof.
  intros (p & Hp & Hh). exists p. split; [exact Hp|].
  simpl. intros h. destruct (file (writer w)) as [h0|]; [|discriminate].
  simpl. intros Heq. inversion Heq. unfold close_handle.
  destruct (h_closed h0); simpl; now apply Hh.
Qed.

Lemma installed_agrees w t p : handle_agrees (writer (installed w t p)).
Proof.
  exists p. split; [reflexivity|]. simpl. intros h Heq. inversion Heq.
  split; reflexivity.
Qed.

Lemma step_agrees env ev w :
  handle_agrees (writer w) -> handle_agrees (writer (step env ev w)).
Proof.
  intros Ha. destruct ev as [[p|req]|flow|]; simpl.
  - rewrite do_GET_eq. now destruct (String.eqb p "/current_task").
  - destruct (do_POST_cases env req w)
      as [(r & -> & _)|[(e & ->)|[(t & e & ->)|(t & line & r & -> & _)]]]; simpl.
    + exact Ha.
    + exact Ha.
    + exact (half_switched_agrees env w t Ha).
    + exact (installed_agrees (half_switched env w t) t (implied_path t)).
  - destruct (response_keeps env flow w) as (_ & Hp & Hid).
    destruct Ha as (p & Hp' & Hh). exists p. split; [congruence|].
    intros h' Hf'. rewrite Hf' in Hid.
    destruct (file (writer w)) as [h|]; [|discriminate Hid].
    injection Hid as Hpa Hmo _. destruct (Hh h eq_refl) as [H1 H2].
    split; congruence.
  - destruct (done_keeps env w) as (_ & Hf & _ & Hp & _).
    destruct Ha as (p & Hp' & _). exists p. split; [congruence|].
    intros h Hh. congruence.
Qed.

(** X9: in a running addon the recorded output path is always set, and
    the file object installed, if any, is at that path and was opened
    for append, also after switches that failed: [get_current_task]
    never reports a path other than that of the installed file object. *)
Theorem running_handle_agrees w :
  reachable w ->
  exists p,
    current_file_path (writer w) = Some p
    /\ forall h, file (writer w) = Some h -> h_path h = p /\ h_mode h = ModeA.
Proof.
  induction 1 as [env d w Hinit|env ev w Hr IH].
  - rewrite init_eq in Hinit.
    destruct (mkdir_fault env default_output_path); [discriminate|].
    destruct (fault env default_output_path); [discriminate|].
    inversion Hinit. apply (installed_agrees (boot d) PNone default_output_path).
  - now apply step_agrees.
Qed.

Lemma running_handle_agrees_witness :
  reachable (step env_t1_denied (EvRequest post_t1) w_started)
  /\ exists p,
       current_file_path (writer (step env_t1_denied (EvRequest post_t1) w_started))
       = Some p
       /\ forall h,
            file (writer (step env_t1_denied (EvRequest post_t1) w_started)) = Some h ->
            h_path h = p /\ h_mode h = ModeA.
Proof.
  assert (H : reachable (step env_t1_denied (EvRequest post_t1) w_started))
    by (apply reach_step, started_reachable).
  split; [exact H|]. exact (running_handle_agrees _ H).
Defined.

(** ** Requests that compose *)

(** X10: when [POST /set_output] is answered 200, a following
    [GET /current_task] is answered 200 with the task identifier that
    was posted, as the JSON value it was, and the path
    [/results/<str(task_id)>/flows.jsonl]; the GET changes nothing. *)
Theorem set_output_then_current_task env fields w r :
  snd (do_POST env (set_output_request (BodyData (JObject fields))) w) = Ok r ->
  status r = 200 ->
  do_GET "/current_task"
    (fst (do_POST env (set_output_request (BodyData (JObject fields))) w))
  = (fst (do_POST env (set_output_request (BodyData (JObject fields))) w),
     Ok (json_response 200
           [("task_id", task_id_of fields);
            ("output_path",
             PStr ("/results/" +:+ py_str (task_id_of fields) +:+ "/flows.jsonl"))])).
Proof.
  rewrite do_POST_set_output.
  destruct (truthy (task_id_of fields)); simpl.
  2:{ intros H. inversion H. subst r. discriminate. }
  rewrite set_output_task_eq.
  destruct (fault env (task_path (task_id_of fields))); simpl.
  { intros H. inversion H. subst r. discriminate. }
  intros _ _. reflexivity.
Qed.

Lemma set_output_then_current_task_witness :
  snd (do_GET "/current_task"
         (fst (do_POST env_ok
                 (set_output_request (BodyData (JObject {["task_id" := PInt 42]})))
                 w_started)))
  = Ok (json_response 200 [("task_id", PInt 42);
                           ("output_path", PStr "/results/42/flows.jsonl")]).
Proof.
  rewrite (set_output_then_current_task env_ok {["task_id" := PInt 42]} w_started
             (json_response 200 [("status", PStr "ok"); ("task_id", PInt 42)])).
  - vm_compute. reflexivity.
  - vm_compute. reflexivity.
  - reflexivity.
Defined.

(** X11: [POST /clear_output] does not look at what the body says, but
    the body is decoded first: with any body that decodes, even a JSON
    array, the request does what it does with no body; with a body that
    does not, it is answered 500 and no clear takes place. *)
Theorem clear_output_body env b w :
  (readable b = true
   /\ do_POST env {| req_path := "/clear_output"; req_body := b |} w
      = do_POST env {| req_path := "/clear_output"; req_body := BodyEmpty |} w)
  \/ (readable b = false
      /\ exists e,
           do_POST env {| req_path := "/clear_output"; req_body := b |} w
           = (logged w (api_error_line e), Ok (bare_response 500))).
Proof.
  destruct (readable b) eqn:Hb.
  - left. split; [reflexivity|].
    now rewrite (do_POST_clear_output env b w Hb),
                (do_POST_clear_output env BodyEmpty w eq_refl).
  - right. split; [reflexivity|]. now apply do_POST_unreadable.
Qed.

(** ** Paths of tasks *)

Lemma append_cancel_r (s1 s2 x : string) : s1 +:+ x = s2 +:+ x -> s1 = s2.
Proof.
  revert s2. induction s1 as [|a s1 IH]; intros [|b s2] H.
  - reflexivity.
  - apply (f_equal String.length) in H.
    change (String.length x = S (String.length (s2 +:+ x))) in H.
    rewrite length_append in H. lia.
  - apply (f_equal String.length) in H.
    change (S (String.length (s1 +:+ x)) = String.length x) in H.
    rewrite length_append in H. lia.
  - change (String a (s1 +:+ x) = String b (s2 +:+ x)) in H.
    inversion H. f_equal. now apply IH.
Qed.

Lemma task_path_injective_strings (t1 t2 : string) :
  (task_path (PStr t1) = task_path (PStr t2) -> t1 = t2)
  /\ task_path (PStr t1) <> default_output_path.
Proof.
  unfold task_path, default_output_path. simpl py_str. split.
  - intros H. apply (inj (String.append "/results/")) in H.
    now apply append_cancel_r in H.
  - intros H. apply (f_equal String.length) in H.
    rewrite !length_append in H. simpl in H. lia.
Qed.

(** X12: the path is the raw interpolation of the identifier, so two
    different string identifiers never get the same path string, and no
    string identifier gets the path string of the default file. *)
Theorem task_path_injective (t1 t2 : string) :
  (task_path (PStr t1) = task_path (PStr t2) -> t1 = t2)
  /\ task_path (PStr t1) <> default_output_path.
Proof. apply task_path_injective_strings. Qed.

(** ** Construction *)

(** X13: [JSONLFlowWriter()] either completes, with no task, the default
    path recorded, a fresh stream on the default file, that file created
    if it was missing and one line printed; or raises what [mkdir] or
    [open] raised for the default path, with nothing opened, nothing
    printed and the disk as it was. *)
Theorem init_outcome env d :
  (fault env default_output_path = None
   /\ snd (__init__ env (boot d)) = Ok tt
   /\ writer (fst (__init__ env (boot d))) = switched_writer PNone default_output_path
   /\ disk (fst (__init__ env (boot d)))
      = <[default_output_path := content d default_output_path]> d
   /\ stdout (fst (__init__ env (boot d)))
      = ["[JSONL Writer] Started, default output: /results/flows.jsonl"])
  \/ (exists e,
        fault env default_output_path = Some e
        /\ __init__ env (boot d) = (boot d, Raise e)).
Proof.
  rewrite init_eq. unfold fault.
  destruct (mkdir_fault env default_output_path) as [e|]; [right; eauto|].
  destruct (open_fault env default_output_path) as [e|]; [right; eauto|].
  left. repeat split.
Qed.

(** * The API scan *)

Lemma startswith_spec s sub :
  startswith s sub = true <-> exists l2, s = (sub ++ l2)%list.
Proof.
  revert s. induction sub as [|a sub IH]; intros s; simpl.
  - split; [intros _; now exists s|reflexivity].
  - destruct s as [|b s]; simpl.
    + split; [discriminate|]. intros [l2 H]. discriminate H.
    + rewrite andb_true_iff, N.eqb_eq, IH. split.
      * intros [-> [l2 ->]]. now exists l2.
      * intros [l2 H]. inversion H. eauto.
Qed.

Lemma str_in_spec sub s :
  str_in sub s = true <-> exists l1 l2, s = (l1 ++ sub ++ l2)%list.
Proof.
  induction s as [|b s IH]; simpl.
  - rewrite orb_false_r, startswith_spec. split.
    + intros [l2 H]. now exists [], l2.
    + intros (l1 & l2 & H). destruct l1; [eauto|discriminate].
  - rewrite orb_true_iff, startswith_spec, IH. split.
    + intros [[l2 H]|(l1 & l2 & H)].
      * now exists [], l2.
      * exists (b :: l1), l2. now rewrite H.
    + intros (l1 & l2 & H). destruct l1 as [|c l1].
      * left. eauto.
      * right. inversion H. eauto.
Qed.

Lemma head_100_take s : head_100 s = take 100 s.
Proof.
  unfold head_100. destruct (100 <? length s)%nat eqn:H; [reflexivity|].
  apply Nat.ltb_ge in H. symmetry. now apply take_ge.
Qed.

Lemma scan_inv_length ac f : scan_inv ac f -> (length ac <= 9)%nat.
Proof.
  intros (_ & Hnd & Hsub).
  rewrite <- (length_map api ac).
  change 9%nat with (length sensitive_apis).
  apply submseteq_length, NoDup_submseteq; assumption.
Qed.

Lemma scan_apis_cons s a apis ac f :
  scan_apis s (a :: apis) ac f =
    if str_in a s && negb (bool_decide (a ∈ f)) then
      if (50 <=? length (ac ++ [entry a s]))%nat
      then ((ac ++ [entry a s])%list, {[a]} ∪ f)
      else scan_apis s apis (ac ++ [entry a s]) ({[a]} ∪ f)
    else scan_apis s apis ac f.
Proof. reflexivity. Qed.

Lemma scan_apis_spec s apis ac f :
  scan_inv ac f -> (forall a, a ∈ apis -> a ∈ sensitive_apis) ->
  exists new,
    fst (scan_apis s apis ac f) = (ac ++ new)%list
    /\ scan_inv (ac ++ new) (snd (scan_apis s apis ac f))
    /\ (forall c, c ∈ new <->
          exists a, a ∈ apis /\ str_in a s = true /\ (a ∉ f) /\ c = entry a s).
Proof.
  revert ac f. induction apis as [|a apis IH]; intros ac f Hinv Hsub.
  - exists []. simpl. rewrite app_nil_r. split; [reflexivity|]. split; [exact Hinv|].
    intros c. split; [intros H; inversion H|intros (a & H & _); inversion H].
  - rewrite scan_apis_cons. destruct (str_in a s && negb (bool_decide (a ∈ f))) eqn:Hc.
    + apply andb_true_iff in Hc as [Hin Hnf].
      apply negb_true_iff, bool_decide_eq_false in Hnf.
      assert (Hinv1 : scan_inv (ac ++ [entry a s]) ({[a]} ∪ f)).
      { destruct Hinv as (Hf & Hnd & Hs). split; [|split].
        - intros b. rewrite map_app, elem_of_app, elem_of_union, elem_of_singleton.
          simpl. rewrite list_elem_of_singleton, Hf. tauto.
        - rewrite map_app. apply NoDup_app. split; [exact Hnd|]. split.
          + intros b Hb. simpl. rewrite list_elem_of_singleton. intros ->.
            apply Hnf. apply Hf. exact Hb.
          + simpl. apply NoDup_singleton.
        - intros b. rewrite map_app, elem_of_app. simpl.
          rewrite list_elem_of_singleton. intros [Hb| ->]; [now apply Hs|].
          apply Hsub. now left. }
      pose proof (scan_inv_length _ _ Hinv1) as Hlen.
      destruct (50 <=? length (ac ++ [entry a s]))%nat eqn:Hbr.
      { apply Nat.leb_le in Hbr. lia. }
      destruct (IH (ac ++ [entry a s])%list ({[a]} ∪ f) Hinv1) as (new & H1 & H2 & H3).
      { intros b Hb. apply Hsub. now right. }
      exists (entry a s :: new). rewrite H1, <- app_assoc. simpl.
      split; [reflexivity|]. split.
      { rewrite <- app_assoc in H2. exact H2. }
      intros c. rewrite elem_of_cons, H3. split.
      * intros [->|(b & Hb & Hbs & Hbf & ->)].
        -- exists a. split; [now left|]. auto.
        -- exists b. split; [now right|]. split; [exact Hbs|]. split; [|reflexivity].
           intros Hbf'. apply Hbf. apply elem_of_union. now right.
      * intros (b & Hb & Hbs & Hbf & ->).
        destruct (decide (b = a)) as [->|Hne]; [now left|].
        right. exists b. apply elem_of_cons in Hb as [Hb|Hb]; [contradiction|].
        split; [exact Hb|]. split; [exact Hbs|]. split; [|reflexivity].
        rewrite elem_of_union, elem_of_singleton. tauto.
    + destruct (IH ac f Hinv) as (new & H1 & H2 & H3).
      { intros b Hb. apply Hsub. now right. }
      exists new. split; [exact H1|]. split; [exact H2|].
      intros c. rewrite H3. split.
      * intros (b & Hb & Hrest). exists b. split; [now right|exact Hrest].
      * intros (b & Hb & Hbs & Hbf & ->).
        apply elem_of_cons in Hb as [->|Hb].
        -- apply andb_false_iff in Hc as [Hc|Hc]; [congruence|].
           apply negb_false_iff, bool_decide_eq_true in Hc. contradiction.
        -- exists b. auto.
Qed.

Lemma scan_strings_cons s strs ac f :
  scan_strings (s :: strs) ac f =
    if (50 <=? length (fst (scan_apis s sensitive_apis ac f)))%nat
    then scan_apis s sensitive_apis ac f
    else scan_strings strs (fst (scan_apis s sensitive_apis ac f))
                           (snd (scan_apis s sensitive_apis ac f)).
Proof.
  cbn [scan_strings]. destruct (scan_apis s sensitive_apis ac f) as [ac1 f1].
  reflexivity.
Qed.

Lemma scan_strings_spec strs ac f :
  scan_inv ac f ->
  exists new,
    fst (scan_strings strs ac f) = (ac ++ new)%list
    /\ scan_inv (ac ++ new) (snd (scan_strings strs ac f))
    /\ (forall c, c ∈ new <->
          exists pre s post a,
            strs = (pre ++ s :: post)%list
            /\ a ∈ sensitive_apis /\ str_in a s = true /\ (a ∉ f)
            /\ (forall s', s' ∈ pre -> str_in a s' = false)
            /\ c = entry a s).
Proof.
  revert ac f. induction strs as [|s strs IH]; intros ac f Hinv.
  - exists []. simpl. rewrite app_nil_r. split; [reflexivity|]. split; [exact Hinv|].
    intros c. split; [intros H; inversion H|].
    intros (pre & s & post & a & H & _). destruct pre; discriminate H.
  - rewrite scan_strings_cons.
    destruct (scan_apis_spec s sensitive_apis ac f Hinv) as (new1 & H1 & Hinv1 & Hc1);
      [auto|].
    rewrite H1.
    pose proof (scan_inv_length _ _ Hinv1) as Hlen.
    destruct (50 <=? length (ac ++ new1))%nat eqn:Hbr.
    { apply Nat.leb_le in Hbr. lia. }
    destruct (IH _ _ Hinv1) as (new2 & H2 & Hinv2 & Hc2).
    assert (Hf1 : forall a, a ∈ snd (scan_apis s sensitive_apis ac f) <->
                    a ∈ f \/ (a ∈ sensitive_apis /\ str_in a s = true)).
    { intros a. destruct Hinv1 as (Hf1 & _ & Hs1). destruct Hinv as (Hf & _ & _).
      rewrite Hf1, map_app, elem_of_app, <- Hf. split.
      - intros [Ha|Ha]; [now left|]. right.
        apply list_elem_of_fmap in Ha as (c & -> & Hc).
        apply Hc1 in Hc as (b & Hb & Hbs & _ & ->). now split.
      - intros [Ha|[Ha Has]]; [now left|].
        destruct (decide (a ∈ f)) as [Haf|Haf]; [now left|]. right.
        apply list_elem_of_fmap. exists (entry a s). split; [reflexivity|].
        apply Hc1. exists a. auto. }
    exists (new1 ++ new2)%list. rewrite H2, <- app_assoc. split; [reflexivity|].
    split; [now rewrite <- app_assoc in Hinv2|].
    intros c. rewrite elem_of_app, Hc1, Hc2. split.
    + intros [(a & Ha & Has & Haf & ->)|(pre & s0 & post & a & -> & Ha & Has & Haf & Hpre & ->)].
      * exists [], s, strs, a. repeat split; try assumption.
        intros s' Hs'. inversion Hs'.
      * exists (s :: pre), s0, post, a. split; [reflexivity|]. split; [exact Ha|].
        split; [exact Has|]. split.
        { intros Hin. apply Haf, Hf1. now left. }
        split; [|reflexivity].
        intros s' Hs'. apply elem_of_cons in Hs' as [Heq|Hs']; [subst s'|now apply Hpre].
        destruct (str_in a s) eqn:E; [|reflexivity].
        exfalso. apply Haf, Hf1. right. now split.
    + intros (pre & s0 & post & a & Heq & Ha & Has & Haf & Hpre & ->).
      destruct pre as [|s1 pre]; simpl in Heq; inversion Heq; subst.
      * left. exists a. auto.
      * right. exists pre, s0, post, a. split; [reflexivity|]. split; [exact Ha|].
        split; [exact Has|]. split.
        { rewrite Hf1. intros [Hin|[_ Hin]]; [contradiction|].
          rewrite (Hpre s1) in Hin; [discriminate|now left]. }
        split; [|reflexivity]. intros s' Hs'. apply Hpre. now right.
Qed.

Lemma scan_inv_empty : scan_inv [] ∅.
Proof.
  split; [|split].
  - intros a. simpl. split; intros H; [now apply not_elem_of_empty in H|inversion H].
  - constructor.
  - intros a H. inversion H.
Qed.

Lemma scan_strings_app l1 l2 ac f :
  scan_inv ac f ->
  scan_strings (l1 ++ l2) ac f
  = scan_strings l2 (fst (scan_strings l1 ac f)) (snd (scan_strings l1 ac f)).
Proof.
  revert ac f. induction l1 as [|s l1 IH]; intros ac f Hinv; [reflexivity|].
  change ((s :: l1) ++ l2)%list with (s :: (l1 ++ l2))%list.
  rewrite !scan_strings_cons.
  destruct (scan_apis_spec s sensitive_apis ac f Hinv) as (new1 & H1 & Hinv1 & _);
    [auto|].
  rewrite H1. pose proof (scan_inv_length _ _ Hinv1) as Hlen.
  destruct (50 <=? length (ac ++ new1))%nat eqn:Hbr.
  { apply Nat.leb_le in Hbr. lia. }
  now apply IH.
Qed.

Lemma extract_api_calls_spec strs :
  extract_api_calls strs = fst (scan_strings strs [] ∅)
  /\ scan_inv (extract_api_calls strs) (snd (scan_strings strs [] ∅))
  /\ (forall c, c ∈ extract_api_calls strs <->
        exists pre s post a,
          strs = (pre ++ s :: post)%list
          /\ a ∈ sensitive_apis /\ str_in a s = true
          /\ (forall s', s' ∈ pre -> str_in a s' = false)
          /\ c = entry a s).
Proof.
  unfold extract_api_calls.
  destruct (scan_strings_spec strs [] ∅ scan_inv_empty) as (new & H1 & Hinv & Hc).
  rewrite H1. simpl app in *.
  pose proof (scan_inv_length _ _ Hinv) as Hlen.
  rewrite take_ge by lia. split; [reflexivity|]. split; [exact Hinv|].
  intros c. rewrite Hc. split.
  - intros (pre & s & post & a & H & Ha & Hs & _ & Hp & He). eauto 10.
  - intros (pre & s & post & a & H & Ha & Hs & Hp & He).
    exists pre, s, post, a. repeat (split; [assumption|]).
    split; [apply not_elem_of_empty|]. now split.
Qed.

(** X14: an entry is in [api_calls] exactly when its "api" is one of
    the nine sensitive names and its "found_in" is the first 100
    characters of the first DEX string, in order, in which that name
    occurs. *)
Theorem api_call_reported strs c :
  c ∈ extract_api_calls strs <->
  exists pre s post,
    strs = (pre ++ s :: post)%list
    /\ api c ∈ sensitive_apis
    /\ occurs_in (api c) s
    /\ (forall s', s' ∈ pre -> ~ occurs_in (api c) s')
    /\ found_in c = take 100 s.
Proof.
  destruct (extract_api_calls_spec strs) as (_ & _ & Hc). rewrite Hc. split.
  - intros (pre & s & post & a & -> & Ha & Has & Hpre & ->).
    exists pre, s, post. simpl. split; [reflexivity|]. split; [exact Ha|].
    split; [now apply str_in_spec|]. split; [|apply head_100_take].
    intros s' Hs' Hocc. apply str_in_spec in Hocc. rewrite (Hpre s' Hs') in Hocc.
    discriminate.
  - intros (pre & s & post & -> & Ha & Has & Hpre & Hfi).
    exists pre, s, post, (api c). split; [reflexivity|]. split; [exact Ha|].
    split; [now apply str_in_spec|]. split.
    + intros s' Hs'. destruct (str_in (api c) s') eqn:E; [|reflexivity].
      exfalso. apply (Hpre s' Hs'). now apply str_in_spec.
    + destruct c as [a fi]. unfold entry. simpl in *. rewrite head_100_take.
      now f_equal.
Qed.

(** X15: no sensitive name is reported twice, so [api_calls] has at
    most nine entries, the limit of 50 is never reached and the final
    [api_calls[:50]] cuts nothing; and no "found_in" is longer than 100
    characters. *)
Theorem api_calls_bounded strs :
  NoDup (map api (extract_api_calls strs))
  /\ (length (extract_api_calls strs) <= 9)%nat
  /\ extract_api_calls strs = fst (scan_strings strs [] ∅)
  /\ (forall c, c ∈ extract_api_calls strs -> (length (found_in c) <= 100)%nat).
Proof.
  destruct (extract_api_calls_spec strs) as (Heq & Hinv & Hc).
  split; [apply Hinv|]. split; [eapply scan_inv_length, Hinv|].
  split; [exact Heq|].
  intros c Hin. apply Hc in Hin as (pre & s & post & a & _ & _ & _ & _ & ->).
  simpl. rewrite head_100_take, length_take. lia.
Qed.

(** X16: scanning more strings only adds entries at the end: the
    [api_calls] of a list of strings is a prefix of the [api_calls] of
    that list followed by further strings. *)
Theorem more_strings_more_calls strs more :
  extract_api_calls strs `prefix_of` extract_api_calls (strs ++ more).
Proof.
  destruct (extract_api_calls_spec strs) as (Heq & Hinv & _).
  destruct (extract_api_calls_spec (strs ++ more)) as (Heq' & _ & _).
  rewrite Heq', (scan_strings_app strs more [] ∅ scan_inv_empty), <- Heq.
  destruct (scan_strings_spec more _ _ Hinv) as (new & H1 & _).
  rewrite H1. now exists new.
Qed.

(** A run of the scan on three strings. *)
Example extract_api_calls_example :
  extract_api_calls [lit "onCreate"; lit "x getDeviceId y rawQuery"; lit "rawQuery getLocation"]
  = [entry (lit "getDeviceId") (lit "x getDeviceId y rawQuery");
     entry (lit "rawQuery") (lit "x getDeviceId y rawQuery");
     entry (lit "getLocation") (lit "rawQuery getLocation")].
Proof. vm_compute. reflexivity. Qed.

(** * Repeated switches and other tasks' files *)

(** X17: repeating a completed switch or clear changes nothing but the
    log: the writer state and the whole disk are as after the first. *)
Theorem repeated_switch_idempotent env env' o w w1 w2 :
  (forall flow, o <> OnFlowObserved flow) ->
  perform env o w = (w1, Ok tt) ->
  perform env' o w1 = (w2, Ok tt) ->
  writer w2 = writer w1 /\ disk w2 = disk w1.
Proof.
  intros Hsw H1 H2.
  destruct (perform_switch_eq env o w Hsw) as [line1 Heq1].
  destruct (perform_switch_eq env' o w1 Hsw) as [line2 Heq2].
  rewrite Heq1 in H1. rewrite Heq2 in H2.
  destruct (fault env (target_path o w)); [discriminate|].
  destruct (fault env' (target_path o w1)); [discriminate|].
  inversion H1 as [Hw1]. inversion H2 as [Hw2].
  assert (Ht : target o w1 = target o w /\ target_path o w1 = target_path o w).
  { destruct o as [t| |flow]; [now split|now split|]. destruct (Hsw flow eq_refl). }
  destruct Ht as [Ht Hp]. simpl. rewrite Ht, Hp. split; [now subst w1|].
  subst w1. simpl. apply open_append_existing.
  rewrite lookup_insert_eq. eauto.
Qed.

Lemma repeated_switch_idempotent_witness :
  disk (fst (perform env_ok Clear (fst (perform env_ok Clear w_recorded))))
  = disk (fst (perform env_ok Clear w_recorded)).
Proof.
  refine (proj2 (repeated_switch_idempotent env_ok env_ok Clear w_recorded
                   (fst (perform env_ok Clear w_recorded))
                   (fst (perform env_ok Clear (fst (perform env_ok Clear w_recorded))))
                   _ _ _)).
  - intros flow. discriminate.
  - vm_compute. reflexivity.
  - vm_compute. reflexivity.
Defined.

Lemma response_other_paths env flow w q :
  (forall h, file (writer w) = Some h -> q <> h_path h) ->
  disk (fst (response env flow w)) !! q = disk w !! q.
Proof.
  intros Hq.
  destruct (response_cases env flow w)
    as [[e ->]|[(h & line & e & _ & _ & _ & _ & _ & ->)
               |(h & line & Hf & _ & _ & _ & _ & ->)]]; [reflexivity|reflexivity|].
  simpl fst. rewrite recorded_disk. rewrite lookup_insert_ne; [reflexivity|].
  intros Heq. now apply (Hq h Hf).
Qed.

(** X18: flows reported to [response], whether they are recorded or
    dropped and whatever the platform does, change nothing at any path
    other than the path of the installed file object; with no file
    object installed they change nothing at all on disk. *)
Theorem flows_touch_one_path env flows w q :
  (forall h, file (writer w) = Some h -> q <> h_path h) ->
  disk (observe_all env flows w) !! q = disk w !! q.
Proof.
  revert w. induction flows as [|flow flows IH]; intros w Hq; [reflexivity|].
  change (observe_all env (flow :: flows) w)
    with (observe_all env flows (fst (response env flow w))).
  rewrite IH; [now apply response_other_paths|].
  intros h' Hf'. destruct (response_keeps env flow w) as (_ & _ & Hid).
  rewrite Hf' in Hid. destruct (file (writer w)) as [h|]; [|discriminate Hid].
  injection Hid as Hpa _ _. rewrite Hpa. now apply Hq.
Qed.

Lemma flows_touch_one_path_witness :
  disk (observe_all env_ok [flow_a; flow_b] w_t1) !! default_output_path
  = disk w_t1 !! default_output_path.
Proof.
  apply (flows_touch_one_path env_ok [flow_a; flow_b] w_t1 default_output_path).
  intros h Hh. vm_compute in Hh. inversion Hh. discriminate.
Defined.
